(** * recti: axis-aligned geometry kernel (cpp_ai/include/recti)

    A shallow embedding of the class templates [Interval<T>], [Vector2<T>],
    [Point<T>], [Rectangle<T>], [VSegment<T>] and [HSegment<T>] and of the
    free function [nearest_point_to].

    The template parameter [T] is instantiated at [int], as the test suite
    does.  An [int] is carried by an integer of [Z] between [Int.min_int]
    and [Int.max_int]; the operators [+], [-], [*], unary [-] and
    [std::abs] are the operations of module [Int], which compute the exact
    result and wrap it around to 32 bits, the value the compiled code
    yields when a result does not fit.  Operator [/] truncates towards
    zero and has no result on a zero divisor or on [min_int / -1].
    Comparisons, [std::min] and [std::max] involve no arithmetic and are
    those of [Z].

    Each C++ class is a module holding a record and its member functions
    under their source names.  Overloads of one name receive a suffix that
    names the parameter type ([overlaps] / [overlaps_value]). *)

From Stdlib Require Import ZArith Zdiv Bool List Lia Morphisms Setoid.
Import ListNotations.

Open Scope Z_scope.

(** The scalar type of the instantiation: the carrier of [int]. *)
Definition T : Type := Z.

(* ================================================================= *)
(** ** Arithmetic of [int] *)

Module Int.

Definition min_int : Z := -2147483648.

Definition max_int : Z := 2147483647.

Definition modulus : Z := 4294967296.

(** The integers an [int] can hold. *)
Definition in_range (z : Z) : Prop := min_int <= z <= max_int.

(** The 32-bit two's complement value of an exact result. *)
Definition wrap (z : Z) : Z := (z - min_int) mod modulus + min_int.

Definition add (a b : T) : T := wrap (a + b).

Definition sub (a b : T) : T := wrap (a - b).

Definition mul (a b : T) : T := wrap (a * b).

Definition neg (a : T) : T := wrap (- a).

(** [std::abs]. *)
Definition abs (a : T) : T := wrap (Z.abs a).

(** Operator [/]: no result on a zero divisor and on [min_int / -1], whose
    quotient does not fit. *)
Definition div (a b : T) : option T :=
  if b =? 0 then None
  else if (a =? min_int) && (b =? -1) then None
  else Some (Z.quot a b).

End Int.

(** Congruence modulo [Int.modulus] is compatible with the exact
    operations that the arithmetic of [int] wraps. *)
#[local] Instance eqm32_equivalence : Equivalence (eqm Int.modulus) :=
  eqm_setoid Int.modulus.

#[local] Instance eqm32_add :
  Proper (eqm Int.modulus ==> eqm Int.modulus ==> eqm Int.modulus) Z.add :=
  Zplus_eqm Int.modulus.

#[local] Instance eqm32_sub :
  Proper (eqm Int.modulus ==> eqm Int.modulus ==> eqm Int.modulus) Z.sub :=
  Zminus_eqm Int.modulus.

#[local] Instance eqm32_mul :
  Proper (eqm Int.modulus ==> eqm Int.modulus ==> eqm Int.modulus) Z.mul :=
  Zmult_eqm Int.modulus.

#[local] Instance eqm32_opp :
  Proper (eqm Int.modulus ==> eqm Int.modulus) Z.opp :=
  Zopp_eqm Int.modulus.

(* ================================================================= *)
(** ** interval.hpp *)

Module Interval.

Record t : Type := mk { lb : T; ub : T }.

(** [Interval()] : the default constructor builds the invalid [1, 0]. *)
Definition default : t := mk 1 0.

Definition is_invalid (i : t) : bool := ub i <? lb i.

Definition is_valid (i : t) : bool := lb i <=? ub i.

Definition width (i : t) : T := Int.sub (ub i) (lb i).

Definition is_empty (i : t) : bool := lb i =? ub i.

Definition overlaps (i other : t) : bool :=
  (lb i <=? ub other) && (lb other <=? ub i).

Definition overlaps_value (i : t) (value : T) : bool :=
  (lb i <=? value) && (value <=? ub i).

Definition contains (i other : t) : bool :=
  (lb i <=? lb other) && (ub other <=? ub i).

Definition contains_value (i : t) (value : T) : bool :=
  (lb i <=? value) && (value <=? ub i).

Definition intersect_with (i other : t) : t :=
  if overlaps i other
  then mk (Z.max (lb i) (lb other)) (Z.min (ub i) (ub other))
  else default.

Definition min_dist_with (i other : t) : T :=
  if overlaps i other then 0
  else if ub i <? lb other then Int.sub (lb other) (ub i)
  else Int.sub (lb i) (ub other).

Definition min_dist_with_value (i : t) (value : T) : T :=
  if contains_value i value then 0
  else if value <? lb i then Int.sub (lb i) value
  else Int.sub value (ub i).

(** [(lb_ + ub_) / 2]: the sum is computed in [int]; halving is always
    defined. *)
Definition get_center (i : t) : T := Z.quot (Int.add (lb i) (ub i)) 2.

Definition measure (i : t) : T := width i.

Definition lower_corner (i : t) : T := lb i.

Definition upper_corner (i : t) : T := ub i.

Definition hull_with (i other : t) : t :=
  mk (Z.min (lb i) (lb other)) (Z.max (ub i) (ub other)).

Definition hull_with_value (i : t) (value : T) : t :=
  mk (Z.min (lb i) value) (Z.max (ub i) value).

Definition enlarge (i : t) (amount : T) : t :=
  mk (Int.sub (lb i) amount) (Int.add (ub i) amount).

(** [operator==] and [operator!=]. *)
Definition eqb (i other : t) : bool :=
  (lb i =? lb other) && (ub i =? ub other).

Definition neqb (i other : t) : bool := negb (eqb i other).

(** [operator+(T)], [operator-(T)], [operator*(T)]. *)
Definition add (i : t) (value : T) : t :=
  mk (Int.add (lb i) value) (Int.add (ub i) value).

Definition sub (i : t) (value : T) : t :=
  mk (Int.sub (lb i) value) (Int.sub (ub i) value).

Definition mul (i : t) (value : T) : t :=
  mk (Int.mul (lb i) value) (Int.mul (ub i) value).

(** Both bounds are values of [int]. *)
Definition wf (i : t) : Prop := Int.in_range (lb i) /\ Int.in_range (ub i).

End Interval.

(** The free functions that close interval.hpp. *)
Definition hull (a b : T) : Interval.t :=
  if a <? b then Interval.mk a b else Interval.mk b a.

Definition hull_interval_value (interval : Interval.t) (value : T) : Interval.t :=
  Interval.hull_with_value interval value.

Definition hull_value_interval (value : T) (interval : Interval.t) : Interval.t :=
  Interval.hull_with_value interval value.

Definition enlarge (interval : Interval.t) (amount : T) : Interval.t :=
  Interval.enlarge interval amount.

(* ================================================================= *)
(** ** vector2.hpp *)

Module Vector2.

Record t : Type := mk { x : T; y : T }.

Definition default : t := mk 0 0.

Definition cross (v other : t) : T :=
  Int.sub (Int.mul (x v) (y other)) (Int.mul (y v) (x other)).

Definition dot (v other : t) : T :=
  Int.add (Int.mul (x v) (x other)) (Int.mul (y v) (y other)).

Definition manhattan_length (v : t) : T :=
  Int.add (Int.abs (x v)) (Int.abs (y v)).

Definition length_squared (v : t) : T :=
  Int.add (Int.mul (x v) (x v)) (Int.mul (y v) (y v)).

Definition eqb (v other : t) : bool :=
  (x v =? x other) && (y v =? y other).

Definition add (v other : t) : t :=
  mk (Int.add (x v) (x other)) (Int.add (y v) (y other)).

Definition sub (v other : t) : t :=
  mk (Int.sub (x v) (x other)) (Int.sub (y v) (y other)).

Definition mul (v : t) (scalar : T) : t :=
  mk (Int.mul (x v) scalar) (Int.mul (y v) scalar).

Definition neg (v : t) : t := mk (Int.neg (x v)) (Int.neg (y v)).

(** Both components are values of [int]. *)
Definition wf (v : t) : Prop := Int.in_range (x v) /\ Int.in_range (y v).

Definition neqb (v other : t) : bool := negb (eqb v other).

(** [operator==(T)] and [operator!=(T)]. *)
Definition eqb_value (v : t) (value : T) : bool :=
  (x v =? value) && (y v =? value).

Definition neqb_value (v : t) (value : T) : bool := negb (eqb_value v value).

(** [operator/(T)]: [Vector2{x_ / scalar, y_ / scalar}].  There is no
    result as soon as one of the two divisions has none. *)
Definition div (v : t) (scalar : T) : option t :=
  match Int.div (x v) scalar, Int.div (y v) scalar with
  | Some qx, Some qy => Some (mk qx qy)
  | _, _ => None
  end.

(** The compound assignments mutate the receiver and take their vector
    operand by reference, so the two may be one object.  Objects live in a
    store addressed by references; each statement of a body is one write. *)
Definition ref : Type := nat.

Definition store : Type := ref -> t.

Definition write_x (s : store) (r : ref) (val : T) : store :=
  fun a => if Nat.eqb a r then mk val (y (s a)) else s a.

Definition write_y (s : store) (r : ref) (val : T) : store :=
  fun a => if Nat.eqb a r then mk (x (s a)) val else s a.

(** [operator+=]: [x_ += other.x_; y_ += other.y_; return *this;]. *)
Definition add_assign (s : store) (this other : ref) : store * ref :=
  let s1 := write_x s this (Int.add (x (s this)) (x (s other))) in
  let s2 := write_y s1 this (Int.add (y (s1 this)) (y (s1 other))) in
  (s2, this).

(** [operator-=]. *)
Definition sub_assign (s : store) (this other : ref) : store * ref :=
  let s1 := write_x s this (Int.sub (x (s this)) (x (s other))) in
  let s2 := write_y s1 this (Int.sub (y (s1 this)) (y (s1 other))) in
  (s2, this).

(** [operator*=]: the scalar is passed by value. *)
Definition mul_assign (s : store) (this : ref) (scalar : T) : store * ref :=
  let s1 := write_x s this (Int.mul (x (s this)) scalar) in
  let s2 := write_y s1 this (Int.mul (y (s1 this)) scalar) in
  (s2, this).

(** [operator/=]: [x_ /= scalar; y_ /= scalar; return *this;], with no
    result as soon as one of the two divisions has none. *)
Definition div_assign (s : store) (this : ref) (scalar : T)
  : option (store * ref) :=
  match Int.div (x (s this)) scalar with
  | None => None
  | Some qx =>
      let s1 := write_x s this qx in
      match Int.div (y (s1 this)) scalar with
      | None => None
      | Some qy =>
          let s2 := write_y s1 this qy in
          Some (s2, this)
      end
  end.

End Vector2.

(** The free functions that close vector2.hpp: [operator*(T, Vector2)],
    [zero_vector], [unit_x] and [unit_y]. *)
Definition scalar_mul (scalar : T) (vec : Vector2.t) : Vector2.t :=
  Vector2.mul vec scalar.

Definition zero_vector : Vector2.t := Vector2.mk 0 0.

Definition unit_x : Vector2.t := Vector2.mk 1 0.

Definition unit_y : Vector2.t := Vector2.mk 0 1.

(* ================================================================= *)
(** ** point.hpp *)

Module Point.

Record t : Type := mk { x : T; y : T }.

Definition default : t := mk 0 0.

Definition width (p : t) : T := 1.

Definition height (p : t) : T := 1.

Definition area (p : t) : T := 1.

Definition overlaps (p other : t) : bool :=
  (x p =? x other) && (y p =? y other).

Definition contains (p other : t) : bool := overlaps p other.

Definition contains_value (p : t) (value : T) : bool :=
  (x p =? value) && (y p =? value).

Definition min_dist_with (p other : t) : T :=
  Int.add (Int.abs (Int.sub (x p) (x other)))
          (Int.abs (Int.sub (y p) (y other))).

Definition get_center (p : t) : t := p.

Definition measure (p : t) : T := area p.

Definition lower_corner (p : t) : t := p.

Definition upper_corner (p : t) : t := p.

Definition hull_with (p other : t) : Interval.t * Interval.t :=
  (Interval.mk (Z.min (x p) (x other)) (Z.max (x p) (x other)),
   Interval.mk (Z.min (y p) (y other)) (Z.max (y p) (y other))).

Definition enlarge (p : t) (amount : T) : Interval.t * Interval.t :=
  (Interval.mk (Int.sub (x p) amount) (Int.add (x p) amount),
   Interval.mk (Int.sub (y p) amount) (Int.add (y p) amount)).

Definition eqb (p other : t) : bool :=
  (x p =? x other) && (y p =? y other).

Definition neqb (p other : t) : bool := negb (eqb p other).

(** [template <typename U> operator+(const Point<U>& vec)]. *)
Definition add (p vec : t) : t :=
  mk (Int.add (x p) (x vec)) (Int.add (y p) (y vec)).

(** [template <typename U> operator-(const Point<U>& vec)]. *)
Definition sub (p vec : t) : t :=
  mk (Int.sub (x p) (x vec)) (Int.sub (y p) (y vec)).

(** [operator-(const Point& other)]. *)
Definition sub_point (p other : t) : t :=
  mk (Int.sub (x p) (x other)) (Int.sub (y p) (y other)).

(** Both coordinates are values of [int]. *)
Definition wf (p : t) : Prop := Int.in_range (x p) /\ Int.in_range (y p).

(** A [const Point<T>*] returned by [nearest_point_to]: either [nullptr]
    or the address of the element [candidates[i]]. *)
Inductive ptr : Type :=
| nullptr
| addr (i : nat).

Definition deref (candidates : list t) (p : ptr) : option t :=
  match p with
  | nullptr => None
  | addr i => nth_error candidates i
  end.

(** The [for] loop of [nearest_point_to].  [rest] holds the elements
    [candidates[i]], [candidates[i+1]], ... still to be visited; [nearest]
    is the index the pointer variable refers to. *)
Fixpoint nearest_loop (point : t) (rest : list t) (i : nat)
                      (nearest : nat) (min_dist : T) : nat :=
  match rest with
  | [] => nearest
  | c :: rest' =>
      let dist := min_dist_with point c in
      if dist <? min_dist
      then nearest_loop point rest' (S i) i dist
      else nearest_loop point rest' (S i) nearest min_dist
  end.

Definition nearest_point_to (point : t) (candidates : list t) : ptr :=
  match candidates with
  | [] => nullptr
  | c0 :: rest =>
      addr (nearest_loop point rest 1%nat 0%nat (min_dist_with point c0))
  end.

End Point.

(* ================================================================= *)
(** ** recti.hpp *)

Module Rectangle.

Record t : Type := mk { x_interval : Interval.t; y_interval : Interval.t }.

Definition default : t := mk (Interval.mk 1 0) (Interval.mk 1 0).

Definition ll (r : t) : Point.t :=
  Point.mk (Interval.lb (x_interval r)) (Interval.lb (y_interval r)).

Definition ur (r : t) : Point.t :=
  Point.mk (Interval.ub (x_interval r)) (Interval.ub (y_interval r)).

Definition width (r : t) : T := Interval.width (x_interval r).

Definition height (r : t) : T := Interval.width (y_interval r).

Definition area (r : t) : T := Int.mul (width r) (height r).

Definition flip (r : t) : t := mk (y_interval r) (x_interval r).

Definition overlaps (r other : t) : bool :=
  Interval.overlaps (x_interval r) (x_interval other)
  && Interval.overlaps (y_interval r) (y_interval other).

Definition contains (r other : t) : bool :=
  Interval.contains (x_interval r) (x_interval other)
  && Interval.contains (y_interval r) (y_interval other).

Definition contains_point (r : t) (point : Point.t) : bool :=
  Interval.contains_value (x_interval r) (Point.x point)
  && Interval.contains_value (y_interval r) (Point.y point).

Definition min_dist_with (r other : t) : T :=
  Int.add (Interval.min_dist_with (x_interval r) (x_interval other))
          (Interval.min_dist_with (y_interval r) (y_interval other)).

Definition min_dist_with_point (r : t) (point : Point.t) : T :=
  Int.add (Interval.min_dist_with_value (x_interval r) (Point.x point))
          (Interval.min_dist_with_value (y_interval r) (Point.y point)).

Definition get_center (r : t) : Point.t :=
  Point.mk (Interval.get_center (x_interval r))
           (Interval.get_center (y_interval r)).

Definition measure (r : t) : T := area r.

Definition lower_corner (r : t) : Point.t := ll r.

Definition upper_corner (r : t) : Point.t := ur r.

Definition eqb (r other : t) : bool :=
  Interval.eqb (x_interval r) (x_interval other)
  && Interval.eqb (y_interval r) (y_interval other).

Definition neqb (r other : t) : bool := negb (eqb r other).

(** All four bounds are values of [int]. *)
Definition wf (r : t) : Prop :=
  Interval.wf (x_interval r) /\ Interval.wf (y_interval r).

End Rectangle.

Module VSegment.

Record t : Type := mk { x : T; y_interval : Interval.t }.

Definition overlaps (s other : t) : bool :=
  (x s =? x other) && Interval.overlaps (y_interval s) (y_interval other).

Definition contains (s other : t) : bool :=
  (x s =? x other) && Interval.contains (y_interval s) (y_interval other).

Definition contains_point (s : t) (point : Point.t) : bool :=
  (x s =? Point.x point)
  && Interval.contains_value (y_interval s) (Point.y point).

Definition eqb (s other : t) : bool :=
  (x s =? x other) && Interval.eqb (y_interval s) (y_interval other).

Definition neqb (s other : t) : bool := negb (eqb s other).

End VSegment.

Module HSegment.

Record t : Type := mk { x_interval : Interval.t; y : T }.

(** [HSegment::flip]. *)
Definition flip (h : t) : VSegment.t := VSegment.mk (y h) (x_interval h).

Definition overlaps (h other : t) : bool :=
  (y h =? y other) && Interval.overlaps (x_interval h) (x_interval other).

Definition contains (h other : t) : bool :=
  (y h =? y other) && Interval.contains (x_interval h) (x_interval other).

Definition contains_point (h : t) (point : Point.t) : bool :=
  (y h =? Point.y point)
  && Interval.contains_value (x_interval h) (Point.x point).

Definition eqb (h other : t) : bool :=
  Interval.eqb (x_interval h) (x_interval other) && (y h =? y other).

Definition neqb (h other : t) : bool := negb (eqb h other).

End HSegment.

(** [VSegment<T>::flip], defined out of class once [HSegment] is complete. *)
Definition VSegment_flip (s : VSegment.t) : HSegment.t :=
  HSegment.mk (VSegment.y_interval s) (VSegment.x s).

(* ================================================================= *)
(** ** generic.hpp *)

Module Generic.

(** The capabilities the generic layer dispatches on.  A class below has
    an instance for a pair of types exactly when the C++ class on the
    left declares the member with a parameter of the type on the right;
    the instances are read off interval.hpp, point.hpp and recti.hpp. *)
Class Overlaps (A B : Type) := overlaps : A -> B -> bool.
Class Contains (A B : Type) := contains : A -> B -> bool.
Class MinDistWith (A B : Type) := min_dist_with : A -> B -> T.
Class GetCenter (A C : Type) := get_center : A -> C.
Class Measure (A : Type) := measure : A -> T.
Class LowerCorner (A C : Type) := lower_corner : A -> C.
Class UpperCorner (A C : Type) := upper_corner : A -> C.

#[global] Hint Mode Overlaps ! ! : typeclass_instances.
#[global] Hint Mode Contains ! ! : typeclass_instances.
#[global] Hint Mode MinDistWith ! ! : typeclass_instances.
#[global] Hint Mode GetCenter ! - : typeclass_instances.
#[global] Hint Mode Measure ! : typeclass_instances.
#[global] Hint Mode LowerCorner ! - : typeclass_instances.
#[global] Hint Mode UpperCorner ! - : typeclass_instances.

(** Interval *)
#[global] Instance Interval_overlaps : Overlaps Interval.t Interval.t :=
  Interval.overlaps.
#[global] Instance Interval_overlaps_value : Overlaps Interval.t T :=
  Interval.overlaps_value.
#[global] Instance Interval_contains : Contains Interval.t Interval.t :=
  Interval.contains.
#[global] Instance Interval_contains_value : Contains Interval.t T :=
  Interval.contains_value.
#[global] Instance Interval_min_dist_with : MinDistWith Interval.t Interval.t :=
  Interval.min_dist_with.
#[global] Instance Interval_min_dist_with_value : MinDistWith Interval.t T :=
  Interval.min_dist_with_value.
#[global] Instance Interval_get_center : GetCenter Interval.t T :=
  Interval.get_center.
#[global] Instance Interval_measure : Measure Interval.t :=
  Interval.measure.
#[global] Instance Interval_lower_corner : LowerCorner Interval.t T :=
  Interval.lower_corner.
#[global] Instance Interval_upper_corner : UpperCorner Interval.t T :=
  Interval.upper_corner.

(** Point *)
#[global] Instance Point_overlaps : Overlaps Point.t Point.t :=
  Point.overlaps.
#[global] Instance Point_contains : Contains Point.t Point.t :=
  Point.contains.
#[global] Instance Point_contains_value : Contains Point.t T :=
  Point.contains_value.
#[global] Instance Point_min_dist_with : MinDistWith Point.t Point.t :=
  Point.min_dist_with.
#[global] Instance Point_get_center : GetCenter Point.t Point.t :=
  Point.get_center.
#[global] Instance Point_measure : Measure Point.t :=
  Point.measure.
#[global] Instance Point_lower_corner : LowerCorner Point.t Point.t :=
  Point.lower_corner.
#[global] Instance Point_upper_corner : UpperCorner Point.t Point.t :=
  Point.upper_corner.

(** Rectangle *)
#[global] Instance Rectangle_overlaps : Overlaps Rectangle.t Rectangle.t :=
  Rectangle.overlaps.
#[global] Instance Rectangle_contains : Contains Rectangle.t Rectangle.t :=
  Rectangle.contains.
#[global] Instance Rectangle_contains_point : Contains Rectangle.t Point.t :=
  Rectangle.contains_point.
#[global] Instance Rectangle_min_dist_with :
  MinDistWith Rectangle.t Rectangle.t := Rectangle.min_dist_with.
#[global] Instance Rectangle_min_dist_with_point :
  MinDistWith Rectangle.t Point.t := Rectangle.min_dist_with_point.
#[global] Instance Rectangle_get_center : GetCenter Rectangle.t Point.t :=
  Rectangle.get_center.
#[global] Instance Rectangle_measure : Measure Rectangle.t :=
  Rectangle.measure.
#[global] Instance Rectangle_lower_corner : LowerCorner Rectangle.t Point.t :=
  Rectangle.lower_corner.
#[global] Instance Rectangle_upper_corner : UpperCorner Rectangle.t Point.t :=
  Rectangle.upper_corner.

(** VSegment and HSegment declare [overlaps] and [contains] only. *)
#[global] Instance VSegment_overlaps : Overlaps VSegment.t VSegment.t :=
  VSegment.overlaps.
#[global] Instance VSegment_contains : Contains VSegment.t VSegment.t :=
  VSegment.contains.
#[global] Instance VSegment_contains_point : Contains VSegment.t Point.t :=
  VSegment.contains_point.
#[global] Instance HSegment_overlaps : Overlaps HSegment.t HSegment.t :=
  HSegment.overlaps.
#[global] Instance HSegment_contains : Contains HSegment.t HSegment.t :=
  HSegment.contains.
#[global] Instance HSegment_contains_point : Contains HSegment.t Point.t :=
  HSegment.contains_point.

(** Modelled from the spec: the header recti/generic.hpp, which declares
    the free functions [overlap], [contain], [min_dist], [center],
    [measure_of], [lower] and [upper], is included by recti.hpp and
    interval.hpp but is not among the sources.  The specification gives
    each of them as a call of the capability method of its first
    argument. *)
Definition overlap {A B : Type} `{Overlaps A B} (a : A) (b : B) : bool :=
  overlaps a b.

(** Modelled from the spec: [contain(a,b)] is [a.contains(b)]; the
    declaration in recti/generic.hpp is missing. *)
Definition contain {A B : Type} `{Contains A B} (a : A) (b : B) : bool :=
  contains a b.

(** Modelled from the spec: [min_dist(a,b)] is [a.min_dist_with(b)]; the
    declaration in recti/generic.hpp is missing. *)
Definition min_dist {A B : Type} `{MinDistWith A B} (a : A) (b : B) : T :=
  min_dist_with a b.

(** Modelled from the spec: [center(a)] is [a.get_center()]; the
    declaration in recti/generic.hpp is missing. *)
Definition center {A C : Type} `{GetCenter A C} (a : A) : C :=
  get_center a.

(** Modelled from the spec: [measure_of(a)] is [a.measure()]; the
    declaration in recti/generic.hpp is missing. *)
Definition measure_of {A : Type} `{Measure A} (a : A) : T :=
  measure a.

(** Modelled from the spec: [lower(a)] is [a.lower_corner()]; the
    declaration in recti/generic.hpp is missing. *)
Definition lower {A C : Type} `{LowerCorner A C} (a : A) : C :=
  lower_corner a.

(** Modelled from the spec: [upper(a)] is [a.upper_corner()]; the
    declaration in recti/generic.hpp is missing. *)
Definition upper {A C : Type} `{UpperCorner A C} (a : A) : C :=
  upper_corner a.

End Generic.

(* ================================================================= *)
(** ** The scenarios of tests/main.cpp, replayed on the embedding *)

Example test_interval_basic :
  let interval1 := Interval.mk 1 5 in
  let interval2 := Interval.mk 3 7 in
  let interval3 := Interval.mk 6 8 in
  Interval.overlaps interval1 interval2 = true
  /\ Interval.overlaps interval1 interval3 = false
  /\ Interval.width interval1 = 4
  /\ Interval.contains_value interval1 3 = true
  /\ Interval.contains_value interval1 6 = false
  /\ Interval.min_dist_with interval1 interval2 = 0
  /\ Interval.min_dist_with interval1 interval3 = 1
  /\ Interval.get_center interval1 = 3
  /\ Interval.measure interval1 = 4
  /\ Interval.intersect_with interval1 interval2 = Interval.mk 3 5.
Proof. cbv. repeat split. Qed.

Example test_point_basic :
  let point1 := Point.mk 3 4 in
  let point3 := Point.mk 5 6 in
  Point.overlaps point1 (Point.mk 3 4) = true
  /\ Point.overlaps point1 point3 = false
  /\ Point.min_dist_with point1 point3 = 4
  /\ Point.eqb (Point.get_center point1) point1 = true.
Proof. cbv. repeat split. Qed.

Example test_rectangle_basic :
  let rect1 := Rectangle.mk (Interval.mk 1 5) (Interval.mk 2 6) in
  let rect2 := Rectangle.mk (Interval.mk 3 7) (Interval.mk 4 8) in
  let rect3 := Rectangle.mk (Interval.mk 10 15) (Interval.mk 10 15) in
  Rectangle.overlaps rect1 rect2 = true
  /\ Rectangle.overlaps rect1 rect3 = false
  /\ Rectangle.ll rect1 = Point.mk 1 2
  /\ Rectangle.ur rect1 = Point.mk 5 6
  /\ Rectangle.area rect1 = 16
  /\ Rectangle.get_center rect1 = Point.mk 3 4.
Proof. cbv. repeat split. Qed.

Example test_generic_functions :
  let interval1 := Interval.mk 1 5 in
  let interval2 := Interval.mk 3 7 in
  let interval3 := Interval.mk 10 15 in
  Generic.overlap interval1 interval2 = true
  /\ Generic.contain interval1 interval2 = false
  /\ Generic.contain interval1 (3 : T) = true
  /\ Generic.min_dist interval1 interval2 = 0
  /\ Generic.min_dist interval1 interval3 = 5
  /\ Generic.measure_of interval1 = 4
  /\ Generic.center interval1 = 3
  /\ Generic.lower interval1 = 1
  /\ Generic.upper interval1 = 5.
Proof. cbv. repeat split. Qed.

Example test_segments :
  let vseg := VSegment.mk 5 (Interval.mk 1 10) in
  let hseg := HSegment.mk (Interval.mk 1 10) 5 in
  VSegment.contains_point vseg (Point.mk 5 3) = true
  /\ HSegment.contains_point hseg (Point.mk 3 5) = true
  /\ VSegment_flip vseg = hseg
  /\ HSegment.flip hseg = vseg.
Proof. cbv. repeat split. Qed.

Example test_nearest_point :
  let reference := Point.mk 3 4 in
  let candidates :=
    [Point.mk 1 1; Point.mk 5 5; Point.mk 3 3; Point.mk 10 10] in
  Point.deref candidates (Point.nearest_point_to reference candidates)
    = Some (Point.mk 3 3)
  /\ Point.nearest_point_to reference [] = Point.nullptr.
Proof. cbv. repeat split. Qed.

Example test_hull_and_enlarge :
  enlarge (Interval.mk 3 7) 2 = Interval.mk 1 9
  /\ hull_interval_value (Interval.mk 3 7) 10 = Interval.mk 3 10
  /\ hull 1 10 = Interval.mk 1 10
  /\ Point.hull_with (Point.mk 3 4) (Point.mk 5 6)
       = (Interval.mk 3 5, Interval.mk 4 6)
  /\ Point.enlarge (Point.mk 3 4) 2 = (Interval.mk 1 5, Interval.mk 2 6).
Proof. cbv. repeat split. Qed.

(** Results that do not fit in [int], as the compiled code yields them. *)
Example test_int_overflow :
  Interval.min_dist_with (Interval.mk Int.min_int Int.min_int)
                         (Interval.mk Int.max_int Int.max_int) = -1
  /\ Interval.get_center (Interval.mk 2147483646 2147483647) = -1
  /\ Point.min_dist_with (Point.mk (-2000000000) 0) (Point.mk 2000000000 0)
     = 294967296
  /\ Vector2.length_squared (Vector2.mk 50000 0) = -1794967296
  /\ Vector2.length_squared (Vector2.mk 65536 0) = 0
  /\ Vector2.div (Vector2.mk Int.min_int 4) (-1) = None
  /\ Vector2.div (Vector2.mk 7 (-7)) 0 = None
  /\ Vector2.div (Vector2.mk 7 (-7)) 2 = Some (Vector2.mk 3 (-3)).
Proof. vm_compute. repeat split. Qed.

(* ================================================================= *)
(** ** Proof support *)

Lemma Interval_overlaps_iff (a b : Interval.t) :
  Interval.overlaps a b = true
  <-> Interval.lb a <= Interval.ub b /\ Interval.lb b <= Interval.ub a.
Proof.
  unfold Interval.overlaps.
  rewrite andb_true_iff, !Z.leb_le. reflexivity.
Qed.

Lemma Interval_contains_iff (a b : Interval.t) :
  Interval.contains a b = true
  <-> Interval.lb a <= Interval.lb b /\ Interval.ub b <= Interval.ub a.
Proof.
  unfold Interval.contains.
  rewrite andb_true_iff, !Z.leb_le. reflexivity.
Qed.

Lemma Interval_is_valid_iff (a : Interval.t) :
  Interval.is_valid a = true <-> Interval.lb a <= Interval.ub a.
Proof. unfold Interval.is_valid. apply Z.leb_le. Qed.

Lemma Interval_is_invalid_iff (a : Interval.t) :
  Interval.is_invalid a = true <-> Interval.ub a < Interval.lb a.
Proof. unfold Interval.is_invalid. apply Z.ltb_lt. Qed.

Lemma Interval_eqb_eq (a b : Interval.t) :
  Interval.eqb a b = true <-> a = b.
Proof.
  destruct a as [la ua], b as [lb' ub']. unfold Interval.eqb. simpl.
  rewrite andb_true_iff, !Z.eqb_eq. split.
  - intros [-> ->]. reflexivity.
  - intros E. injection E. auto.
Qed.

(** The gap computed outside the overlapping case is strictly positive. *)
(** A wrapped result differs from the exact one by a multiple of the
    modulus and is a value of [int]. *)
Lemma Int_wrap_spec (z : Z) :
  exists k : Z, Int.wrap z = z + Int.modulus * k /\ Int.in_range (Int.wrap z).
Proof.
  unfold Int.wrap, Int.in_range, Int.modulus, Int.min_int, Int.max_int.
  exists (- ((z + 2147483648) / 4294967296)).
  pose proof (Z.div_mod (z + 2147483648) 4294967296 ltac:(lia)).
  pose proof (Z.mod_pos_bound (z + 2147483648) 4294967296 ltac:(lia)).
  replace (z - -2147483648) with (z + 2147483648) by lia. lia.
Qed.

(** An exact result that fits is left as it is. *)
Lemma Int_wrap_in_range (z : Z) : Int.in_range z -> Int.wrap z = z.
Proof.
  intros Hz. destruct (Int_wrap_spec z) as (k & Hk & Hr).
  unfold Int.in_range, Int.modulus, Int.min_int, Int.max_int in *. lia.
Qed.

(** The truncated midpoint of two ordered integers lies between them. *)
Lemma quot2_between (l u : Z) :
  l <= u -> l <= Z.quot (l + u) 2 <= u.
Proof.
  intros Hle.
  pose proof (Z.quot_rem' (l + u) 2) as Hqr.
  pose proof (Z.rem_bound_abs (l + u) 2 ltac:(lia)) as Hr.
  lia.
Qed.

(** A truncated quotient times its divisor lies between zero and the
    dividend. *)
Lemma quot_mul_between (a b : Z) :
  b <> 0 ->
  (0 <= a -> 0 <= Z.quot a b * b <= a)
  /\ (a <= 0 -> a <= Z.quot a b * b <= 0).
Proof.
  intros Hb.
  pose proof (Z.quot_rem' a b) as Hqr.
  pose proof (Z.rem_bound_abs a b Hb) as Hr.
  split; intros Ha.
  - pose proof (Z.rem_nonneg a b Hb Ha) as Hn.
    assert (0 <= Z.quot a b * b); [|lia].
    destruct (Z.lt_trichotomy (Z.quot a b) 0) as [Hq|[Hq|Hq]];
      destruct (Z.lt_trichotomy b 0) as [Hb'|[Hb'|Hb']]; try lia; nia.
  - pose proof (Z.rem_nonpos a b Hb Ha) as Hn.
    assert (Z.quot a b * b <= 0); [|lia].
    destruct (Z.lt_trichotomy (Z.quot a b) 0) as [Hq|[Hq|Hq]];
      destruct (Z.lt_trichotomy b 0) as [Hb'|[Hb'|Hb']]; try lia; nia.
Qed.

(** Open every shape value of the context into its fields. *)
Ltac open_shapes :=
  repeat match goal with
         | a : Interval.t |- _ => destruct a
         | p : Point.t |- _ => destruct p
         | r : Rectangle.t |- _ => destruct r
         | s : VSegment.t |- _ => destruct s
         | h : HSegment.t |- _ => destruct h
         | v : Vector2.t |- _ => destruct v
         end.

(** Unfold the member functions down to comparisons, exact arithmetic and
    [Int.wrap]. *)
Ltac unfold_members :=
  cbv beta iota zeta delta
    [Int.add Int.sub Int.mul Int.neg Int.abs
     Interval.lb Interval.ub Interval.default Interval.is_invalid
     Interval.is_valid Interval.width Interval.is_empty Interval.overlaps
     Interval.overlaps_value Interval.contains Interval.contains_value
     Interval.intersect_with Interval.min_dist_with
     Interval.min_dist_with_value Interval.measure Interval.get_center
     Interval.hull_with Interval.hull_with_value Interval.enlarge
     Interval.eqb Interval.add Interval.sub Interval.mul Interval.wf
     hull hull_interval_value hull_value_interval enlarge
     Point.x Point.y Point.overlaps Point.contains Point.contains_value
     Point.min_dist_with Point.hull_with Point.enlarge Point.eqb Point.add
     Point.sub Point.sub_point Point.default Point.get_center Point.wf
     Rectangle.x_interval Rectangle.y_interval Rectangle.ll Rectangle.ur
     Rectangle.width Rectangle.height Rectangle.area Rectangle.flip
     Rectangle.overlaps Rectangle.contains Rectangle.contains_point
     Rectangle.min_dist_with Rectangle.min_dist_with_point Rectangle.eqb
     Rectangle.lower_corner Rectangle.upper_corner Rectangle.get_center
     Rectangle.wf
     VSegment.x VSegment.y_interval VSegment.overlaps VSegment.contains
     VSegment.contains_point VSegment.eqb VSegment_flip
     HSegment.x_interval HSegment.y HSegment.overlaps HSegment.contains
     HSegment.contains_point HSegment.eqb HSegment.flip
     Vector2.x Vector2.y Vector2.cross Vector2.dot Vector2.manhattan_length
     Vector2.length_squared Vector2.eqb Vector2.eqb_value Vector2.add
     Vector2.sub Vector2.mul Vector2.neg Vector2.default Vector2.wf
     scalar_mul zero_vector unit_x unit_y
     fst snd] in *.

(** Decide every comparison that occurs, in the goal or in a hypothesis. *)
Ltac split_cmp :=
  repeat match goal with
         | |- context [?a <=? ?b] => destruct (Z.leb_spec a b)
         | |- context [?a <? ?b] => destruct (Z.ltb_spec a b)
         | |- context [?a =? ?b] => destruct (Z.eqb_spec a b)
         | H : context [?a <=? ?b] |- _ => destruct (Z.leb_spec a b)
         | H : context [?a <? ?b] |- _ => destruct (Z.ltb_spec a b)
         | H : context [?a =? ?b] |- _ => destruct (Z.eqb_spec a b)
         end.

(** Name every wrapped result, with the multiple of the modulus that
    separates it from the exact one and its range. *)
Ltac wrap_elim :=
  repeat match goal with
         | |- context [Int.wrap ?t] =>
             let k := fresh "k" in
             let Hk := fresh "Hk" in
             let Hr := fresh "Hr" in
             let w := fresh "w" in
             destruct (Int_wrap_spec t) as (k & Hk & Hr);
             set (w := Int.wrap t) in *; clearbody w
         | H : context [Int.wrap ?t] |- _ =>
             let k := fresh "k" in
             let Hk := fresh "Hk" in
             let Hr := fresh "Hr" in
             let w := fresh "w" in
             destruct (Int_wrap_spec t) as (k & Hk & Hr);
             set (w := Int.wrap t) in *; clearbody w
         end;
  unfold Int.in_range, Int.modulus, Int.min_int, Int.max_int, T in *.

Ltac finish_order :=
  cbn [andb orb negb] in *;
  try reflexivity; try discriminate; try congruence; try lia;
  try (f_equal; lia); try (f_equal; f_equal; lia); try (exfalso; lia).

Ltac shape_crush := open_shapes; unfold_members; split_cmp; finish_order.

(** Check on concrete values that they, or an exact result, fit. *)
Ltac range_solve :=
  unfold Rectangle.wf, Interval.wf, Point.wf, Vector2.wf, Int.in_range,
    Int.min_int, Int.max_int;
  simpl; lia.

(** The same, with the wrapped results of the arithmetic named first. *)
Ltac int_crush :=
  open_shapes; unfold_members; split_cmp; wrap_elim; finish_order.

(** Split conjunctions only, leaving every equation as it is. *)
Ltac split_conj := repeat match goal with |- _ /\ _ => split end.

(** Two exact results wrap to the same [int] exactly when they are
    congruent modulo [2^32]. *)
Lemma Int_wrap_eq_iff (a b : Z) :
  Int.wrap a = Int.wrap b <-> eqm Int.modulus a b.
Proof.
  unfold Int.wrap, eqm. split; intros H.
  - assert (E : (a - Int.min_int) mod Int.modulus
                = (b - Int.min_int) mod Int.modulus) by lia.
    pose proof (Zplus_eqm Int.modulus _ _ E _ _
                  (eqm_refl Int.modulus Int.min_int)) as E'.
    unfold eqm in E'.
    replace (a - Int.min_int + Int.min_int) with a in E' by lia.
    replace (b - Int.min_int + Int.min_int) with b in E' by lia.
    exact E'.
  - pose proof (Zminus_eqm Int.modulus _ _ H _ _
                  (eqm_refl Int.modulus Int.min_int)) as E'.
    unfold eqm in E'. rewrite E'. reflexivity.
Qed.

Lemma Int_wrap_eqm (z : Z) : eqm Int.modulus (Int.wrap z) z.
Proof.
  apply Int_wrap_eq_iff.
  destruct (Int_wrap_spec (Int.wrap z)) as (k & Hk & Hr).
  destruct (Int_wrap_spec z) as (k' & Hk' & Hr').
  unfold Int.in_range, Int.modulus, Int.min_int, Int.max_int in *. lia.
Qed.

(** An identity between two wrapped polynomial results: both sides are
    congruent to the exact polynomials, which [ring] identifies. *)
Ltac wrap_ring :=
  open_shapes; unfold_members;
  repeat match goal with
         | |- Vector2.mk _ _ = Vector2.mk _ _ => apply (f_equal2 Vector2.mk)
         | |- Point.mk _ _ = Point.mk _ _ => apply (f_equal2 Point.mk)
         | |- Interval.mk _ _ = Interval.mk _ _ => apply (f_equal2 Interval.mk)
         end;
  apply Int_wrap_eq_iff;
  repeat setoid_rewrite Int_wrap_eqm;
  match goal with
  | |- eqm _ ?a ?b => replace a with b by (unfold T in *; ring); reflexivity
  end.

(** When the Manhattan distance of two points fits in [int], it is what
    [Point::min_dist_with] returns. *)
Lemma Point_min_dist_with_exact (p q : Point.t) :
  Int.in_range (Z.abs (Point.x p - Point.x q) + Z.abs (Point.y p - Point.y q)) ->
  Point.min_dist_with p q
  = Z.abs (Point.x p - Point.x q) + Z.abs (Point.y p - Point.y q).
Proof. intros H. int_crush. Qed.

(* ================================================================= *)
(** ** Generic algebra layer *)

(** C1: each generic free function is the capability method of its first
    argument.  For Interval, Point and Rectangle all of [overlap],
    [contain], [min_dist], [center], [measure_of], [lower] and [upper]
    apply, with every parameter type the class overloads the method for;
    VSegment and HSegment declare [overlaps] and [contains] only, so
    [overlap] and [contain] are the generic calls that apply to them. *)
Theorem generic_functions_delegate :
  (forall (a b : Interval.t) (v : T),
      Generic.overlap a b = Interval.overlaps a b
      /\ Generic.overlap a v = Interval.overlaps_value a v
      /\ Generic.contain a b = Interval.contains a b
      /\ Generic.contain a v = Interval.contains_value a v
      /\ Generic.min_dist a b = Interval.min_dist_with a b
      /\ Generic.min_dist a v = Interval.min_dist_with_value a v
      /\ Generic.center a = Interval.get_center a
      /\ Generic.measure_of a = Interval.measure a
      /\ Generic.lower a = Interval.lower_corner a
      /\ Generic.upper a = Interval.upper_corner a)
  /\ (forall (p q : Point.t) (v : T),
      Generic.overlap p q = Point.overlaps p q
      /\ Generic.contain p q = Point.contains p q
      /\ Generic.contain p v = Point.contains_value p v
      /\ Generic.min_dist p q = Point.min_dist_with p q
      /\ Generic.center p = Point.get_center p
      /\ Generic.measure_of p = Point.measure p
      /\ Generic.lower p = Point.lower_corner p
      /\ Generic.upper p = Point.upper_corner p)
  /\ (forall (r s : Rectangle.t) (p : Point.t),
      Generic.overlap r s = Rectangle.overlaps r s
      /\ Generic.contain r s = Rectangle.contains r s
      /\ Generic.contain r p = Rectangle.contains_point r p
      /\ Generic.min_dist r s = Rectangle.min_dist_with r s
      /\ Generic.min_dist r p = Rectangle.min_dist_with_point r p
      /\ Generic.center r = Rectangle.get_center r
      /\ Generic.measure_of r = Rectangle.measure r
      /\ Generic.lower r = Rectangle.lower_corner r
      /\ Generic.upper r = Rectangle.upper_corner r)
  /\ (forall (s s' : VSegment.t) (p : Point.t),
      Generic.overlap s s' = VSegment.overlaps s s'
      /\ Generic.contain s s' = VSegment.contains s s'
      /\ Generic.contain s p = VSegment.contains_point s p)
  /\ (forall (h h' : HSegment.t) (p : Point.t),
      Generic.overlap h h' = HSegment.overlaps h h'
      /\ Generic.contain h h' = HSegment.contains h h'
      /\ Generic.contain h p = HSegment.contains_point h p).
Proof.
  repeat split.
Qed.

(* ================================================================= *)
(** ** Interval and Rectangle distance *)




(* ================================================================= *)
(** ** Interval intersection *)

(** C3: [intersect_with] is total; on overlapping intervals it returns
    [max(lb,lb'), min(ub,ub')], on all others the canonical invalid
    interval with lb = 1 and ub = 0, which [is_invalid] reports. *)
Theorem intersect_with_spec (a b : Interval.t) :
  (Interval.overlaps a b = true ->
     Interval.intersect_with a b
     = Interval.mk (Z.max (Interval.lb a) (Interval.lb b))
                   (Z.min (Interval.ub a) (Interval.ub b)))
  /\ (Interval.overlaps a b = false ->
     Interval.intersect_with a b = Interval.mk 1 0
     /\ Interval.intersect_with a b = Interval.default
     /\ Interval.lb (Interval.intersect_with a b) = 1
     /\ Interval.ub (Interval.intersect_with a b) = 0
     /\ Interval.is_invalid (Interval.intersect_with a b) = true).
Proof.
  unfold Interval.intersect_with.
  split; intros ->.
  - reflexivity.
  - repeat split.
Qed.

Lemma intersect_with_spec_witness :
  Interval.overlaps (Interval.mk 1 5) (Interval.mk 3 7) = true
  /\ Interval.intersect_with (Interval.mk 1 5) (Interval.mk 3 7)
     = Interval.mk 3 5
  /\ Interval.overlaps (Interval.mk 1 5) (Interval.mk 10 15) = false
  /\ Interval.is_invalid
       (Interval.intersect_with (Interval.mk 1 5) (Interval.mk 10 15)) = true.
Proof.
  split; [reflexivity|].
  split; [exact (proj1 (intersect_with_spec (Interval.mk 1 5) (Interval.mk 3 7))
                       eq_refl)|].
  split; [reflexivity|].
  exact (proj2 (proj2 (proj2 (proj2
    (proj2 (intersect_with_spec (Interval.mk 1 5) (Interval.mk 10 15))
           eq_refl))))).
Defined.

(* ================================================================= *)
(** ** Segment flip *)

(** C4: flipping a VSegment gives the HSegment whose x-interval is the
    segment's y-interval and whose y is its x; flipping twice gives back
    the segment, for VSegment and for HSegment, both as values and under
    [operator==]. *)
Theorem flip_involutive :
  (forall s : VSegment.t,
      HSegment.x_interval (VSegment_flip s) = VSegment.y_interval s
      /\ HSegment.y (VSegment_flip s) = VSegment.x s
      /\ HSegment.flip (VSegment_flip s) = s
      /\ VSegment.eqb (HSegment.flip (VSegment_flip s)) s = true)
  /\ (forall h : HSegment.t,
      VSegment.x (HSegment.flip h) = HSegment.y h
      /\ VSegment.y_interval (HSegment.flip h) = HSegment.x_interval h
      /\ VSegment_flip (HSegment.flip h) = h
      /\ HSegment.eqb (VSegment_flip (HSegment.flip h)) h = true).
Proof.
  split.
  - intros [sx sy]. repeat split.
    unfold VSegment.eqb. simpl.
    rewrite Z.eqb_refl. simpl. apply Interval_eqb_eq. reflexivity.
  - intros [hx hy]. repeat split.
    unfold HSegment.eqb. simpl.
    rewrite Z.eqb_refl, andb_true_r. apply Interval_eqb_eq. reflexivity.
Qed.

(* ================================================================= *)
(** ** Hull *)

(** C5: [Interval::hull_with] is [min(lb,lb'), max(ub,ub')] and contains
    both operands; the rectangle built from the interval pair of
    [Point::hull_with] contains both points. *)
Theorem hull_with_contains_operands :
  (forall a b : Interval.t,
      Interval.hull_with a b
      = Interval.mk (Z.min (Interval.lb a) (Interval.lb b))
                    (Z.max (Interval.ub a) (Interval.ub b))
      /\ Interval.contains (Interval.hull_with a b) a = true
      /\ Interval.contains (Interval.hull_with a b) b = true)
  /\ (forall p q : Point.t,
      let box := Rectangle.mk (fst (Point.hull_with p q))
                              (snd (Point.hull_with p q)) in
      Rectangle.contains_point box p = true
      /\ Rectangle.contains_point box q = true).
Proof.
  split.
  - intros a b. split; [reflexivity|].
    rewrite !Interval_contains_iff. unfold Interval.hull_with. simpl. lia.
  - intros p q. unfold Rectangle.contains_point, Interval.contains_value.
    simpl. rewrite !andb_true_iff, !Z.leb_le. lia.
Qed.

(** C10: a hull is valid as soon as one operand is valid, whatever the
    other operand is; in particular the hull of the invalid sentinel
    [1, 0] with a valid interval is valid. *)
Theorem hull_with_valid (a b : Interval.t) :
  Interval.is_valid a = true \/ Interval.is_valid b = true ->
  Interval.is_valid (Interval.hull_with a b) = true.
Proof.
  rewrite !Interval_is_valid_iff. unfold Interval.hull_with. simpl. lia.
Qed.

Lemma hull_with_valid_witness :
  Interval.is_valid Interval.default = false
  /\ Interval.is_valid (Interval.mk 3 7) = true
  /\ Interval.is_valid
       (Interval.hull_with Interval.default (Interval.mk 3 7)) = true
  /\ Interval.is_valid
       (Interval.hull_with (Interval.mk 3 7) Interval.default) = true.
Proof.
  split; [reflexivity|]. split; [reflexivity|]. split.
  - apply (hull_with_valid Interval.default (Interval.mk 3 7)).
    right. reflexivity.
  - apply (hull_with_valid (Interval.mk 3 7) Interval.default).
    left. reflexivity.
Defined.

(* ================================================================= *)
(** ** Enlarge *)

(** C9, as the claim states it, fails near the bounds of [int]: shrinking
    [2000000000, 2100000000] by 1000000000 on each side, ten times its
    width, gives the valid interval [-1294967296, 1100000000], because
    [lb - amount] does not fit. *)
Lemma enlarge_overflow_counterexample :
  Interval.width (Interval.mk 2000000000 2100000000) = 100000000
  /\ Interval.enlarge (Interval.mk 2000000000 2100000000) (-1000000000)
     = Interval.mk (-1294967296) 1100000000
  /\ Interval.is_invalid
       (Interval.enlarge (Interval.mk 2000000000 2100000000) (-1000000000))
     = false.
Proof. vm_compute. repeat split. Qed.

(** C9, amended: [enlarge] returns [lb - amount, ub + amount], computed in
    [int], for every amount of either sign; when [lb - amount],
    [ub + amount] and the width [ub - lb] fit in [int], a negative amount
    whose magnitude exceeds half the width (exactly, or as the truncated
    quotient [width / 2]) gives an invalid interval as an ordinary value.
    [Point::enlarge] returns the pair [x - amount, x + amount],
    [y - amount, y + amount], computed in [int]. *)
Theorem enlarge_spec_in_range (i : Interval.t) (p : Point.t) (amount : T) :
  Interval.enlarge i amount
  = Interval.mk (Int.sub (Interval.lb i) amount)
                (Int.add (Interval.ub i) amount)
  /\ enlarge i amount
     = Interval.mk (Int.sub (Interval.lb i) amount)
                   (Int.add (Interval.ub i) amount)
  /\ (Int.in_range (Interval.lb i - amount) ->
      Int.in_range (Interval.ub i + amount) ->
      Int.in_range (Interval.ub i - Interval.lb i) ->
      amount < 0 ->
      (Interval.width i < 2 * Z.abs amount ->
       Interval.is_invalid (Interval.enlarge i amount) = true)
      /\ (Z.quot (Interval.width i) 2 < Z.abs amount ->
          Interval.is_invalid (Interval.enlarge i amount) = true))
  /\ Point.enlarge p amount
     = (Interval.mk (Int.sub (Point.x p) amount) (Int.add (Point.x p) amount),
        Interval.mk (Int.sub (Point.y p) amount) (Int.add (Point.y p) amount)).
Proof.
  split; [reflexivity|]. split; [reflexivity|]. split; [|reflexivity].
  intros Hl Hu Hw Hneg. destruct i as [l u]. unfold_members.
  rewrite (Int_wrap_in_range _ Hl), (Int_wrap_in_range _ Hu),
    (Int_wrap_in_range _ Hw).
  unfold T in *. split; intros Hhalf; apply Z.ltb_lt.
  - lia.
  - destruct (Z.lt_ge_cases (u - l) 0) as [Hn|Hp]; [lia|].
    pose proof (Z.quot_rem' (u - l) 2) as Hqr.
    pose proof (Z.rem_bound_pos (u - l) 2 Hp ltac:(lia)) as Hr.
    lia.
Qed.

Lemma enlarge_spec_in_range_witness :
  Interval.enlarge (Interval.mk 3 7) 2 = Interval.mk 1 9
  /\ Interval.is_invalid (Interval.enlarge (Interval.mk 3 7) (-3)) = true.
Proof.
  split; [exact (proj1 (enlarge_spec_in_range (Interval.mk 3 7) (Point.mk 0 0) 2))|].
  apply (proj1 (proj2 (proj2
           (enlarge_spec_in_range (Interval.mk 3 7) (Point.mk 0 0) (-3))))).
  - range_solve.
  - range_solve.
  - range_solve.
  - lia.
  - vm_compute. reflexivity.
Defined.

(* ================================================================= *)
(** ** Point *)

(** C7: the width, height, area and measure of a point are 1 whatever its
    coordinates. *)
Theorem point_unit_measure (p : Point.t) :
  Point.width p = 1 /\ Point.height p = 1
  /\ Point.area p = 1 /\ Point.measure p = 1.
Proof. repeat split. Qed.

(* ================================================================= *)
(** ** Nearest-point search *)

Section NearestPoint.

Variable point : Point.t.

(** Reading one position past a prefix: the element is in the prefix or
    it is the appended one. *)
Lemma nth_error_snoc (pre : list Point.t) (a : Point.t) (j : nat) (c : Point.t) :
  nth_error (pre ++ [a]) j = Some c ->
  nth_error pre j = Some c \/ (j = length pre /\ c = a).
Proof.
  intros H.
  destruct (Nat.lt_ge_cases j (length pre)) as [Hlt|Hge].
  - left. rewrite nth_error_app1 in H by exact Hlt. exact H.
  - right. rewrite nth_error_app2 in H by exact Hge.
    destruct (j - length pre)%nat as [|k] eqn:E; simpl in H.
    + split; [lia | congruence].
    + destruct k; discriminate.
Qed.

(** Invariant of the scan.  When the loop is entered at index
    [length pre] with [nearest] pointing at an element of the visited
    prefix [pre] whose distance [min_dist] is minimal in [pre] and
    strictly below every earlier distance, the index it returns has the
    same two properties in the whole of [pre ++ rest]. *)
Lemma nearest_loop_invariant (rest : list Point.t) :
  forall (pre : list Point.t) (nearest : nat) (min_dist : T) (c : Point.t),
    nth_error pre nearest = Some c ->
    Point.min_dist_with point c = min_dist ->
    (forall j c', nth_error pre j = Some c' -> min_dist <= Point.min_dist_with point c') ->
    (forall j c', (j < nearest)%nat -> nth_error pre j = Some c' ->
                  min_dist < Point.min_dist_with point c') ->
    let r := Point.nearest_loop point rest (length pre) nearest min_dist in
    exists c_r,
      nth_error (pre ++ rest) r = Some c_r
      /\ (forall j c', nth_error (pre ++ rest) j = Some c' ->
                       Point.min_dist_with point c_r <= Point.min_dist_with point c')
      /\ (forall j c', (j < r)%nat -> nth_error (pre ++ rest) j = Some c' ->
                       Point.min_dist_with point c_r < Point.min_dist_with point c').
Proof.
  induction rest as [|a rest IH]; intros pre nearest min_dist c Hc Hd Hmin Hfirst.
  - simpl. rewrite app_nil_r. exists c. subst min_dist. auto.
  - simpl.
    assert (Hlen : length (pre ++ [a]) = S (length pre))
      by (rewrite length_app; simpl; lia).
    assert (Happ : (pre ++ [a]) ++ rest = pre ++ a :: rest)
      by (rewrite <- app_assoc; reflexivity).
    destruct (Z.ltb_spec (Point.min_dist_with point a) min_dist) as [Hlt|Hge].
    + specialize (IH (pre ++ [a]) (length pre) (Point.min_dist_with point a) a).
      rewrite Hlen, Happ in IH. apply IH.
      * rewrite nth_error_app2 by lia. rewrite Nat.sub_diag. reflexivity.
      * reflexivity.
      * intros j c' Hj. apply nth_error_snoc in Hj.
        destruct Hj as [Hj|[_ ->]]; [apply Hmin in Hj|]; lia.
      * intros j c' Hjlt Hj. rewrite nth_error_app1 in Hj by exact Hjlt.
        apply Hmin in Hj. lia.
    + specialize (IH (pre ++ [a]) nearest min_dist c).
      rewrite Hlen, Happ in IH.
      assert (Hn : (nearest < length pre)%nat)
        by (apply nth_error_Some; congruence).
      apply IH.
      * rewrite nth_error_app1 by exact Hn. exact Hc.
      * exact Hd.
      * intros j c' Hj. apply nth_error_snoc in Hj.
        destruct Hj as [Hj|[_ ->]]; [apply Hmin in Hj|]; lia.
      * intros j c' Hjlt Hj. rewrite nth_error_app1 in Hj by lia.
        apply (Hfirst j c' Hjlt Hj).
Qed.

(** C6: [nearest_point_to] returns [nullptr] exactly on an empty
    candidate list; on a non-empty list it returns the address of a
    candidate whose distance to [point] is minimal over the list, and
    every candidate before it is strictly farther, so among several
    minimal candidates the first in list order is returned. *)
Theorem nearest_point_to_spec (candidates : list Point.t) :
  (Point.nearest_point_to point candidates = Point.nullptr
   <-> candidates = [])
  /\ (candidates <> [] ->
      exists (i : nat) (c : Point.t),
        Point.nearest_point_to point candidates = Point.addr i
        /\ Point.deref candidates (Point.addr i) = Some c
        /\ In c candidates
        /\ (forall c', In c' candidates ->
              Point.min_dist_with point c <= Point.min_dist_with point c')
        /\ (forall j c', (j < i)%nat -> nth_error candidates j = Some c' ->
              Point.min_dist_with point c < Point.min_dist_with point c')).
Proof.
  split.
  - destruct candidates; simpl; split; intros; congruence.
  - destruct candidates as [|c0 rest]; [congruence|]. intros _.
    pose proof (nearest_loop_invariant rest [c0] 0%nat
                  (Point.min_dist_with point c0) c0) as Hinv.
    simpl in Hinv.
    destruct Hinv as (c & Hnth & Hmin & Hfirst).
    + reflexivity.
    + reflexivity.
    + intros [|[|j]] c' Hj; simpl in Hj; try discriminate.
      injection Hj as <-. lia.
    + intros j c' Hj. lia.
    + exists (Point.nearest_loop point rest 1 0 (Point.min_dist_with point c0)), c.
      split; [reflexivity|]. split; [exact Hnth|].
      split; [eapply nth_error_In; exact Hnth|]. split.
      * intros c' Hin. apply In_nth_error in Hin. destruct Hin as [j Hj].
        apply (Hmin j c' Hj).
      * exact Hfirst.
Qed.

End NearestPoint.

Lemma nearest_point_to_spec_witness :
  exists (i : nat) (c : Point.t),
    Point.nearest_point_to (Point.mk 3 4)
      [Point.mk 1 1; Point.mk 5 5; Point.mk 3 3; Point.mk 3 5] = Point.addr i
    /\ Point.deref [Point.mk 1 1; Point.mk 5 5; Point.mk 3 3; Point.mk 3 5]
         (Point.addr i) = Some c
    /\ In c [Point.mk 1 1; Point.mk 5 5; Point.mk 3 3; Point.mk 3 5]
    /\ (forall c',
          In c' [Point.mk 1 1; Point.mk 5 5; Point.mk 3 3; Point.mk 3 5] ->
          Point.min_dist_with (Point.mk 3 4) c
          <= Point.min_dist_with (Point.mk 3 4) c')
    /\ (forall j c', (j < i)%nat ->
          nth_error [Point.mk 1 1; Point.mk 5 5; Point.mk 3 3; Point.mk 3 5] j
          = Some c' ->
          Point.min_dist_with (Point.mk 3 4) c
          < Point.min_dist_with (Point.mk 3 4) c').
Proof.
  apply (proj2 (nearest_point_to_spec (Point.mk 3 4)
           [Point.mk 1 1; Point.mk 5 5; Point.mk 3 3; Point.mk 3 5])).
  discriminate.
Defined.

(** Two candidates at the minimal distance: the earlier one is returned. *)
Example nearest_point_to_tie :
  Point.nearest_point_to (Point.mk 3 4)
    [Point.mk 1 1; Point.mk 3 5; Point.mk 3 3] = Point.addr 1.
Proof. reflexivity. Qed.

(* ================================================================= *)
(** ** Further properties of the kernel *)

(** X1: overlap is symmetric for intervals, points, rectangles and both
    kinds of segment. *)
Theorem overlaps_symmetric :
  (forall a b : Interval.t, Interval.overlaps a b = Interval.overlaps b a)
  /\ (forall p q : Point.t, Point.overlaps p q = Point.overlaps q p)
  /\ (forall r s : Rectangle.t, Rectangle.overlaps r s = Rectangle.overlaps s r)
  /\ (forall s s' : VSegment.t, VSegment.overlaps s s' = VSegment.overlaps s' s)
  /\ (forall h h' : HSegment.t, HSegment.overlaps h h' = HSegment.overlaps h' h).
Proof.
  repeat split; intros; shape_crush.
Qed.

(** X2: containment orders intervals and rectangles: it is reflexive
    (also on invalid ones), transitive, and two shapes that contain each
    other are equal under [operator==]. *)
Theorem contains_partial_order :
  (forall a b c : Interval.t,
      Interval.contains a a = true
      /\ (Interval.contains a b = true -> Interval.contains b c = true ->
          Interval.contains a c = true)
      /\ (Interval.contains a b = true -> Interval.contains b a = true ->
          Interval.eqb a b = true /\ a = b))
  /\ (forall r s u : Rectangle.t,
      Rectangle.contains r r = true
      /\ (Rectangle.contains r s = true -> Rectangle.contains s u = true ->
          Rectangle.contains r u = true)
      /\ (Rectangle.contains r s = true -> Rectangle.contains s r = true ->
          Rectangle.eqb r s = true /\ r = s)).
Proof.
  split.
  - intros a b c. repeat split; intros; shape_crush.
  - intros r s u. repeat split; intros; shape_crush.
    all: repeat f_equal; lia.
Qed.

Lemma contains_partial_order_witness :
  Interval.contains (Interval.mk 0 9) (Interval.mk 4 5) = true
  /\ Interval.eqb (Interval.mk 2 3) (Interval.mk 2 3) = true.
Proof.
  split.
  - apply (proj1 (proj2 (proj1 contains_partial_order
             (Interval.mk 0 9) (Interval.mk 2 7) (Interval.mk 4 5))));
      reflexivity.
  - apply (proj2 (proj2 (proj1 contains_partial_order
             (Interval.mk 2 3) (Interval.mk 2 3) (Interval.mk 0 0))));
      reflexivity.
Defined.

(** X3: a shape that contains a valid shape overlaps it.  Validity of the
    inner shape is needed: an invalid interval is contained in intervals
    it does not overlap. *)
Theorem contains_valid_overlaps :
  (forall a b : Interval.t,
      Interval.is_valid b = true -> Interval.contains a b = true ->
      Interval.overlaps a b = true)
  /\ (forall r s : Rectangle.t,
      Interval.is_valid (Rectangle.x_interval s) = true ->
      Interval.is_valid (Rectangle.y_interval s) = true ->
      Rectangle.contains r s = true -> Rectangle.overlaps r s = true)
  /\ (forall s s' : VSegment.t,
      Interval.is_valid (VSegment.y_interval s') = true ->
      VSegment.contains s s' = true -> VSegment.overlaps s s' = true)
  /\ (forall h h' : HSegment.t,
      Interval.is_valid (HSegment.x_interval h') = true ->
      HSegment.contains h h' = true -> HSegment.overlaps h h' = true)
  /\ Interval.contains (Interval.mk 0 1) (Interval.mk 5 (-5)) = true
  /\ Interval.overlaps (Interval.mk 0 1) (Interval.mk 5 (-5)) = false.
Proof.
  repeat split; intros; shape_crush.
Qed.

Lemma contains_valid_overlaps_witness :
  Interval.overlaps (Interval.mk 0 9) (Interval.mk 4 5) = true.
Proof.
  apply (proj1 contains_valid_overlaps (Interval.mk 0 9) (Interval.mk 4 5));
    reflexivity.
Defined.

(** X4: a value lies in [a.intersect_with(b)] exactly when it lies in both
    [a] and [b], for all intervals; intersection is commutative; and an
    interval meets itself in itself when valid and in the invalid
    sentinel [1, 0] otherwise. *)
Theorem intersect_with_algebra (a b : Interval.t) (v : T) :
  Interval.contains_value (Interval.intersect_with a b) v
  = Interval.contains_value a v && Interval.contains_value b v
  /\ Interval.intersect_with a b = Interval.intersect_with b a
  /\ Interval.intersect_with a a
     = (if Interval.is_valid a then a else Interval.default).
Proof.
  repeat split; shape_crush.
Qed.

(** X5: the intersection of two valid overlapping intervals is valid and
    contained in both, and every valid interval contained in both
    operands is contained in their intersection.  Two intervals that
    hold a common value overlap, and two valid overlapping intervals hold
    a common value, the larger of their lower bounds. *)
Theorem intersect_with_greatest (a b c : Interval.t) (v : T) :
  (Interval.is_valid a = true -> Interval.is_valid b = true ->
   Interval.overlaps a b = true ->
   Interval.is_valid (Interval.intersect_with a b) = true
   /\ Interval.contains a (Interval.intersect_with a b) = true
   /\ Interval.contains b (Interval.intersect_with a b) = true
   /\ Interval.contains_value a (Z.max (Interval.lb a) (Interval.lb b)) = true
   /\ Interval.contains_value b (Z.max (Interval.lb a) (Interval.lb b)) = true)
  /\ (Interval.is_valid c = true ->
      Interval.contains a c = true -> Interval.contains b c = true ->
      Interval.contains (Interval.intersect_with a b) c = true)
  /\ (Interval.contains_value a v = true ->
      Interval.contains_value b v = true ->
      Interval.overlaps a b = true).
Proof.
  repeat split; intros; shape_crush.
Qed.

Lemma intersect_with_greatest_witness :
  Interval.is_valid (Interval.intersect_with (Interval.mk 1 5) (Interval.mk 3 7))
  = true
  /\ Interval.contains (Interval.intersect_with (Interval.mk 1 5) (Interval.mk 3 7))
       (Interval.mk 4 5) = true
  /\ Interval.overlaps (Interval.mk 1 5) (Interval.mk 3 7) = true.
Proof.
  split; [|split].
  - apply (proj1 (intersect_with_greatest
             (Interval.mk 1 5) (Interval.mk 3 7) (Interval.mk 4 5) 4));
      reflexivity.
  - apply (proj1 (proj2 (intersect_with_greatest
             (Interval.mk 1 5) (Interval.mk 3 7) (Interval.mk 4 5) 4)));
      reflexivity.
  - apply (proj2 (proj2 (intersect_with_greatest
             (Interval.mk 1 5) (Interval.mk 3 7) (Interval.mk 4 5) 4)));
      reflexivity.
Defined.

(** X6: between valid intervals the distance is symmetric, and the
    distance to a value is the distance to the one-point interval at that
    value; the rectangle distance is symmetric when all four component
    intervals are valid.  Validity is needed: [10, 0] is at distance 3
    from [3, 4], which is at distance 6 from [10, 0]. *)
Theorem min_dist_with_valid_symmetric :
  (forall (a b : Interval.t) (v : T),
      Interval.is_valid a = true -> Interval.is_valid b = true ->
      Interval.min_dist_with a b = Interval.min_dist_with b a
      /\ Interval.min_dist_with_value a v
         = Interval.min_dist_with a (Interval.mk v v))
  /\ (forall r s : Rectangle.t,
      Interval.is_valid (Rectangle.x_interval r) = true ->
      Interval.is_valid (Rectangle.y_interval r) = true ->
      Interval.is_valid (Rectangle.x_interval s) = true ->
      Interval.is_valid (Rectangle.y_interval s) = true ->
      Rectangle.min_dist_with r s = Rectangle.min_dist_with s r)
  /\ Interval.min_dist_with (Interval.mk 10 0) (Interval.mk 3 4) = 3
  /\ Interval.min_dist_with (Interval.mk 3 4) (Interval.mk 10 0) = 6.
Proof.
  repeat split; intros; int_crush.
Qed.

Lemma min_dist_with_valid_symmetric_witness :
  Interval.min_dist_with (Interval.mk 1 5) (Interval.mk 10 15)
  = Interval.min_dist_with (Interval.mk 10 15) (Interval.mk 1 5)
  /\ Interval.min_dist_with_value (Interval.mk 1 5) 8
     = Interval.min_dist_with (Interval.mk 1 5) (Interval.mk 8 8).
Proof.
  apply (proj1 min_dist_with_valid_symmetric
           (Interval.mk 1 5) (Interval.mk 10 15) 8);
    reflexivity.
Defined.

(** X7: when the differences between the value and the bounds fit in
    [int], the distance from an interval to a value is never negative and
    is zero exactly when the interval contains the value; the same holds
    for a rectangle and a point when the sum of the two axis distances
    fits as well; and when the Manhattan distance of two points [q] and
    [p] fits, it is both the distance from the one-point rectangle at [q]
    to [p] and [Point::min_dist_with] of [q] and [p]. *)
Theorem min_dist_with_value_zero_iff_contains :
  (forall (i : Interval.t) (v : T),
      Int.in_range (Interval.lb i - v) -> Int.in_range (v - Interval.ub i) ->
      0 <= Interval.min_dist_with_value i v
      /\ (Interval.min_dist_with_value i v = 0
          <-> Interval.contains_value i v = true))
  /\ (forall (r : Rectangle.t) (p : Point.t),
      Int.in_range (Interval.lb (Rectangle.x_interval r) - Point.x p) ->
      Int.in_range (Point.x p - Interval.ub (Rectangle.x_interval r)) ->
      Int.in_range (Interval.lb (Rectangle.y_interval r) - Point.y p) ->
      Int.in_range (Point.y p - Interval.ub (Rectangle.y_interval r)) ->
      Int.in_range
        (Interval.min_dist_with_value (Rectangle.x_interval r) (Point.x p)
         + Interval.min_dist_with_value (Rectangle.y_interval r) (Point.y p)) ->
      0 <= Rectangle.min_dist_with_point r p
      /\ (Rectangle.min_dist_with_point r p = 0
          <-> Rectangle.contains_point r p = true))
  /\ (forall q p : Point.t,
      Int.in_range (Z.abs (Point.x q - Point.x p)
                    + Z.abs (Point.y q - Point.y p)) ->
      Rectangle.min_dist_with_point
        (Rectangle.mk (Interval.mk (Point.x q) (Point.x q))
                      (Interval.mk (Point.y q) (Point.y q))) p
      = Z.abs (Point.x q - Point.x p) + Z.abs (Point.y q - Point.y p)
      /\ Point.min_dist_with q p
         = Z.abs (Point.x q - Point.x p) + Z.abs (Point.y q - Point.y p)).
Proof.
  split; [|split].
  - intros i v H1 H2. split; [|split]; intros; int_crush.
  - intros r p H1 H2 H3 H4 H5. split; [|split]; intros; int_crush.
  - intros q p H. split; int_crush.
Qed.

Lemma min_dist_with_value_zero_iff_contains_witness :
  (0 <= Interval.min_dist_with_value (Interval.mk 1 5) 8
   /\ (Interval.min_dist_with_value (Interval.mk 1 5) 8 = 0
       <-> Interval.contains_value (Interval.mk 1 5) 8 = true))
  /\ Point.min_dist_with (Point.mk 3 4) (Point.mk 5 6)
     = Z.abs (3 - 5) + Z.abs (4 - 6).
Proof.
  split.
  - apply (proj1 min_dist_with_value_zero_iff_contains (Interval.mk 1 5) 8);
      range_solve.
  - apply (proj2 (proj2 min_dist_with_value_zero_iff_contains)
             (Point.mk 3 4) (Point.mk 5 6)).
    range_solve.
Defined.

(** X8: for valid intervals and a non-negative amount, when the enlarged
    bounds and the two bound differences fit in [int], enlarging one
    interval makes it overlap the other exactly when the amount reaches
    their distance. *)
Theorem enlarge_overlaps_iff_min_dist (a b : Interval.t) (d : T) :
  Interval.is_valid a = true -> Interval.is_valid b = true -> 0 <= d ->
  Int.in_range (Interval.lb a - d) -> Int.in_range (Interval.ub a + d) ->
  Int.in_range (Interval.lb b - Interval.ub a) ->
  Int.in_range (Interval.lb a - Interval.ub b) ->
  (Interval.overlaps (Interval.enlarge a d) b = true
   <-> Interval.min_dist_with a b <= d).
Proof.
  intros; split; intros; int_crush.
Qed.

Lemma enlarge_overlaps_iff_min_dist_witness :
  Interval.overlaps (Interval.enlarge (Interval.mk 1 5) 5) (Interval.mk 10 15)
  = true
  <-> Interval.min_dist_with (Interval.mk 1 5) (Interval.mk 10 15) <= 5.
Proof.
  apply (enlarge_overlaps_iff_min_dist (Interval.mk 1 5) (Interval.mk 10 15) 5);
    try reflexivity;
    range_solve.
Defined.

(** X9: the hull of intervals is commutative, associative and idempotent,
    and the hull with a value is the hull with the one-point interval.
    The hull is the least interval containing both operands: an interval
    that contains both contains their hull, and the hull with a contained
    interval changes nothing. *)
Theorem hull_with_lattice (a b c : Interval.t) (v : T) :
  Interval.hull_with a b = Interval.hull_with b a
  /\ Interval.hull_with (Interval.hull_with a b) c
     = Interval.hull_with a (Interval.hull_with b c)
  /\ Interval.hull_with a a = a
  /\ Interval.hull_with_value a v = Interval.hull_with a (Interval.mk v v)
  /\ (Interval.contains c a = true -> Interval.contains c b = true ->
      Interval.contains c (Interval.hull_with a b) = true)
  /\ (Interval.contains a b = true -> Interval.hull_with a b = a).
Proof.
  repeat split; intros; shape_crush.
Qed.

Lemma hull_with_lattice_witness :
  Interval.contains (Interval.mk 0 9)
    (Interval.hull_with (Interval.mk 1 2) (Interval.mk 7 8)) = true
  /\ Interval.hull_with (Interval.mk 0 9) (Interval.mk 7 8) = Interval.mk 0 9.
Proof.
  split.
  - apply (proj1 (proj2 (proj2 (proj2 (proj2 (hull_with_lattice
             (Interval.mk 1 2) (Interval.mk 7 8) (Interval.mk 0 9) 0))))));
      reflexivity.
  - apply (proj2 (proj2 (proj2 (proj2 (proj2 (hull_with_lattice
             (Interval.mk 0 9) (Interval.mk 7 8) (Interval.mk 0 0) 0))))));
      reflexivity.
Defined.

(** X10: [operator==] decides equality of values for every type of the
    kernel, and [operator!=] decides its negation; a vector equals a
    scalar under [operator==(T)] exactly when both components are that
    scalar; and an interval with bounds in [int] is empty exactly when
    its width is zero. *)
Theorem equality_operators :
  (forall a b : Interval.t,
      (Interval.eqb a b = true <-> a = b)
      /\ (Interval.neqb a b = true <-> a <> b)
      /\ (Interval.wf a ->
          (Interval.is_empty a = true <-> Interval.width a = 0)))
  /\ (forall p q : Point.t,
      (Point.eqb p q = true <-> p = q)
      /\ (Point.neqb p q = true <-> p <> q))
  /\ (forall u v : Vector2.t,
      (Vector2.eqb u v = true <-> u = v)
      /\ (Vector2.neqb u v = true <-> u <> v))
  /\ (forall (v : Vector2.t) (k : T),
      (Vector2.eqb_value v k = true <-> v = Vector2.mk k k)
      /\ (Vector2.neqb_value v k = true <-> v <> Vector2.mk k k))
  /\ (forall r s : Rectangle.t,
      (Rectangle.eqb r s = true <-> r = s)
      /\ (Rectangle.neqb r s = true <-> r <> s))
  /\ (forall s s' : VSegment.t,
      (VSegment.eqb s s' = true <-> s = s')
      /\ (VSegment.neqb s s' = true <-> s <> s'))
  /\ (forall h h' : HSegment.t,
      (HSegment.eqb h h' = true <-> h = h')
      /\ (HSegment.neqb h h' = true <-> h <> h')).
Proof.
  repeat match goal with |- _ /\ _ => split end; intros;
    repeat match goal with |- _ /\ _ => split end;
    try (intros Hwf; split; intros; int_crush);
    open_shapes;
    cbv beta iota delta
      [Interval.eqb Interval.neqb
       Interval.lb Interval.ub Point.eqb Point.neqb Point.x Point.y
       Vector2.eqb Vector2.neqb Vector2.eqb_value Vector2.neqb_value
       Vector2.x Vector2.y Rectangle.eqb Rectangle.neqb
       Rectangle.x_interval Rectangle.y_interval VSegment.eqb VSegment.neqb
       VSegment.x VSegment.y_interval HSegment.eqb HSegment.neqb
       HSegment.x_interval HSegment.y];
    rewrite ?negb_true_iff; split_cmp; cbn [andb];
    split; intro H;
    try reflexivity; try discriminate; try lia; try congruence;
    try (exfalso; apply H; congruence);
    try (injection H; intros; lia).
Qed.

Lemma equality_operators_witness :
  Interval.is_empty (Interval.mk 4 4) = true
  <-> Interval.width (Interval.mk 4 4) = 0.
Proof.
  apply (proj2 (proj2 (proj1 equality_operators
                         (Interval.mk 4 4) (Interval.mk 4 4)))).
  range_solve.
Defined.

(** X11: the hull of two values is a valid interval whatever their order,
    contains both, and does not depend on the order of the arguments; the
    two mixed overloads of [hull] agree, and the hull of an interval with
    a value contains the value and the interval. *)
Theorem hull_of_values (a b : T) (i : Interval.t) (v : T) :
  Interval.is_valid (hull a b) = true
  /\ Interval.contains_value (hull a b) a = true
  /\ Interval.contains_value (hull a b) b = true
  /\ hull a b = hull b a
  /\ hull a b = Interval.mk (Z.min a b) (Z.max a b)
  /\ hull_interval_value i v = hull_value_interval v i
  /\ Interval.contains_value (hull_interval_value i v) v = true
  /\ Interval.contains (hull_interval_value i v) i = true.
Proof.
  repeat split; shape_crush.
Qed.

(** X12: enlargements add up, enlarging by [a] adds [2a] to the width,
    both computed in [int], and keeps the centre.  For an interval with
    bounds in [int], enlarging by 0 changes nothing and enlarging by [a]
    and then by [-a] gives the interval back.  When [lb - a] and [ub + a]
    fit in [int], the result contains the original exactly when [a] is
    not negative and is valid exactly when the width plus [2a] is not
    negative. *)
Theorem enlarge_algebra (i : Interval.t) (a b : T) :
  Interval.enlarge (Interval.enlarge i a) b = Interval.enlarge i (Int.add a b)
  /\ Interval.width (Interval.enlarge i a)
     = Int.add (Interval.width i) (Int.mul 2 a)
  /\ Interval.get_center (Interval.enlarge i a) = Interval.get_center i
  /\ (Interval.wf i ->
      Interval.enlarge i 0 = i
      /\ Interval.enlarge (Interval.enlarge i a) (Int.neg a) = i)
  /\ (Int.in_range (Interval.lb i - a) -> Int.in_range (Interval.ub i + a) ->
      Interval.contains (Interval.enlarge i a) i = (0 <=? a)
      /\ Interval.is_valid (Interval.enlarge i a)
         = (0 <=? (Interval.ub i - Interval.lb i) + 2 * a)).
Proof.
  repeat match goal with |- _ /\ _ => split end; intros;
    repeat match goal with |- _ /\ _ => split end; int_crush.
Qed.

Lemma enlarge_algebra_witness :
  Interval.enlarge (Interval.enlarge (Interval.mk 3 7) 2) (Int.neg 2)
  = Interval.mk 3 7
  /\ Interval.is_valid (Interval.enlarge (Interval.mk 3 7) (-3))
     = (0 <=? (7 - 3) + 2 * (-3)).
Proof.
  split.
  - apply (proj1 (proj2 (proj2 (proj2
             (enlarge_algebra (Interval.mk 3 7) 2 0))))).
    range_solve.
  - apply (proj2 (proj2 (proj2 (proj2
             (enlarge_algebra (Interval.mk 3 7) (-3) 0)))));
      range_solve.
Defined.

(** X13: translations of an interval add up and keep the width, both
    computed in [int]; on an interval with bounds in [int] a translation
    is undone by the opposite one; and when the translated bounds fit in
    [int], translating two intervals by the same scalar keeps their
    validity, overlap, containment and distance. *)
Theorem translation_invariance (a b : Interval.t) (v w : T) :
  Interval.add (Interval.add a v) w = Interval.add a (Int.add v w)
  /\ Interval.width (Interval.add a v) = Interval.width a
  /\ (Interval.wf a ->
      Interval.sub (Interval.add a v) v = a
      /\ Interval.add (Interval.sub a v) v = a)
  /\ (Int.in_range (Interval.lb a + v) -> Int.in_range (Interval.ub a + v) ->
      Int.in_range (Interval.lb b + v) -> Int.in_range (Interval.ub b + v) ->
      Interval.is_valid (Interval.add a v) = Interval.is_valid a
      /\ Interval.overlaps (Interval.add a v) (Interval.add b v)
         = Interval.overlaps a b
      /\ Interval.contains (Interval.add a v) (Interval.add b v)
         = Interval.contains a b
      /\ Interval.min_dist_with (Interval.add a v) (Interval.add b v)
         = Interval.min_dist_with a b).
Proof.
  repeat match goal with |- _ /\ _ => split end; intros;
    repeat match goal with |- _ /\ _ => split end; int_crush.
Qed.

Lemma translation_invariance_witness :
  Interval.sub (Interval.add (Interval.mk 1 5) 10) 10 = Interval.mk 1 5
  /\ Interval.min_dist_with (Interval.add (Interval.mk 1 5) 10)
                            (Interval.add (Interval.mk 8 9) 10)
     = Interval.min_dist_with (Interval.mk 1 5) (Interval.mk 8 9).
Proof.
  split.
  - apply (proj1 (proj2 (proj2
             (translation_invariance (Interval.mk 1 5) (Interval.mk 8 9) 10 0)))).
    range_solve.
  - apply (proj2 (proj2 (proj2
             (translation_invariance (Interval.mk 1 5) (Interval.mk 8 9) 10 0))));
      range_solve.
Defined.

(** X14: scaling multiplies the width by the scalar and composes
    multiplicatively, both computed in [int], and scaling an interval
    with bounds in [int] by 1 changes nothing.  When the scaled bounds
    fit in [int], a non-negative scalar keeps a valid interval valid,
    while a negative scalar turns every valid interval of positive width
    into an invalid one, since the bounds are scaled in place and not
    exchanged. *)
Theorem mul_scaling (i : Interval.t) (j k : T) :
  Interval.width (Interval.mul i k) = Int.mul k (Interval.width i)
  /\ Interval.mul (Interval.mul i j) k = Interval.mul i (Int.mul j k)
  /\ (Interval.wf i -> Interval.mul i 1 = i)
  /\ (Int.in_range (Interval.lb i * k) -> Int.in_range (Interval.ub i * k) ->
      (0 <= k -> Interval.is_valid i = true ->
       Interval.is_valid (Interval.mul i k) = true)
      /\ (k < 0 -> Interval.lb i < Interval.ub i ->
          Interval.is_invalid (Interval.mul i k) = true)).
Proof.
  destruct i as [l u]. unfold_members.
  split; [wrap_elim; lia|]. split; [wrap_elim; f_equal; lia|].
  split; [intros [Hl Hu]; simpl in Hl, Hu; wrap_elim; f_equal; lia|].
  intros Hl Hu. rewrite (Int_wrap_in_range _ Hl), (Int_wrap_in_range _ Hu).
  unfold T in *. split.
  - intros Hk Hv. apply Z.leb_le in Hv. apply Z.leb_le. nia.
  - intros Hk Hw. apply Z.ltb_lt. nia.
Qed.

Lemma mul_scaling_witness :
  Interval.mul (Interval.mk 1 5) 1 = Interval.mk 1 5
  /\ Interval.is_valid (Interval.mul (Interval.mk 1 5) 2) = true
  /\ Interval.is_invalid (Interval.mul (Interval.mk 1 5) (-1)) = true.
Proof.
  split; [|split].
  - apply (proj1 (proj2 (proj2 (mul_scaling (Interval.mk 1 5) 1 1)))).
    range_solve.
  - destruct (proj2 (proj2 (proj2 (mul_scaling (Interval.mk 1 5) 1 2))))
      as [Hpos _]; [range_solve | range_solve |].
    apply Hpos; [lia | reflexivity].
  - destruct (proj2 (proj2 (proj2 (mul_scaling (Interval.mk 1 5) 1 (-1)))))
      as [_ Hneg]; [range_solve | range_solve |].
    apply Hneg; [lia | simpl; lia].
Defined.

(** X15: when the sum of its bounds fits in [int], the centre of a valid
    interval lies in the interval, and the two parts it cuts the interval
    into differ in length by at most one (the truncation of the division
    by 2). *)
Theorem get_center_inside (i : Interval.t) :
  Interval.is_valid i = true ->
  Int.in_range (Interval.lb i + Interval.ub i) ->
  Interval.contains_value i (Interval.get_center i) = true
  /\ Z.abs ((Interval.ub i - Interval.get_center i)
            - (Interval.get_center i - Interval.lb i)) <= 1.
Proof.
  destruct i as [l u]. unfold_members. intros Hv Hs.
  rewrite (Int_wrap_in_range _ Hs). apply Z.leb_le in Hv.
  pose proof (quot2_between l u Hv) as Hb.
  pose proof (Z.quot_rem' (l + u) 2) as Hqr.
  pose proof (Z.rem_bound_abs (l + u) 2 ltac:(lia)) as Hr.
  unfold T in *. rewrite andb_true_iff, !Z.leb_le. lia.
Qed.

Lemma get_center_inside_witness :
  Interval.contains_value (Interval.mk (-4) 1)
    (Interval.get_center (Interval.mk (-4) 1)) = true
  /\ Z.abs ((Interval.ub (Interval.mk (-4) 1)
             - Interval.get_center (Interval.mk (-4) 1))
            - (Interval.get_center (Interval.mk (-4) 1)
               - Interval.lb (Interval.mk (-4) 1))) <= 1.
Proof.
  apply (get_center_inside (Interval.mk (-4) 1)).
  - reflexivity.
  - range_solve.
Defined.

(** X16: an invalid interval contains no value and does not overlap
    itself, although it contains itself; when the difference of its
    bounds fits in [int], its width is negative and its distance to
    itself is positive, the exact difference [lb - ub]. *)
Theorem invalid_interval_behaviour (i : Interval.t) (v : T) :
  Interval.is_invalid i = true ->
  Interval.is_valid i = false
  /\ Interval.contains_value i v = false
  /\ Interval.overlaps_value i v = false
  /\ Interval.overlaps i i = false
  /\ Interval.contains i i = true
  /\ (Int.in_range (Interval.ub i - Interval.lb i) -> Interval.width i < 0)
  /\ (Int.in_range (Interval.lb i - Interval.ub i) ->
      Interval.min_dist_with i i = Interval.lb i - Interval.ub i
      /\ 0 < Interval.min_dist_with i i).
Proof.
  intros; repeat match goal with |- _ /\ _ => split end; intros;
    repeat match goal with |- _ /\ _ => split end; int_crush.
Qed.

Lemma invalid_interval_behaviour_witness :
  Interval.is_valid Interval.default = false
  /\ Interval.contains_value Interval.default 0 = false
  /\ Interval.overlaps_value Interval.default 0 = false
  /\ Interval.overlaps Interval.default Interval.default = false
  /\ Interval.contains Interval.default Interval.default = true
  /\ (Int.in_range (Interval.ub Interval.default - Interval.lb Interval.default) ->
      Interval.width Interval.default < 0)
  /\ (Int.in_range (Interval.lb Interval.default - Interval.ub Interval.default) ->
      Interval.min_dist_with Interval.default Interval.default
      = Interval.lb Interval.default - Interval.ub Interval.default
      /\ 0 < Interval.min_dist_with Interval.default Interval.default).
Proof.
  apply (invalid_interval_behaviour Interval.default 0). reflexivity.
Defined.

(** X17: the distance between two points is symmetric; when their
    Manhattan distance fits in [int], it is what [min_dist_with] returns,
    so the distance is then never negative and is zero exactly for equal
    points (where [overlaps] holds); and when the Manhattan distances
    from [p] to [q] and from [q] to [r] fit, the distance from [p] to [r]
    is at most their sum. *)
Theorem point_min_dist_metric (p q r : Point.t) :
  Point.min_dist_with p q = Point.min_dist_with q p
  /\ (Int.in_range (Z.abs (Point.x p - Point.x q)
                    + Z.abs (Point.y p - Point.y q)) ->
      Point.min_dist_with p q
      = Z.abs (Point.x p - Point.x q) + Z.abs (Point.y p - Point.y q)
      /\ 0 <= Point.min_dist_with p q
      /\ (Point.min_dist_with p q = 0 <-> Point.overlaps p q = true)
      /\ (Point.min_dist_with p q = 0 <-> p = q))
  /\ (Int.in_range (Z.abs (Point.x p - Point.x q)
                    + Z.abs (Point.y p - Point.y q)) ->
      Int.in_range (Z.abs (Point.x q - Point.x r)
                    + Z.abs (Point.y q - Point.y r)) ->
      Point.min_dist_with p r
      <= Point.min_dist_with p q + Point.min_dist_with q r).
Proof.
  split; [int_crush|]. split.
  - intros H. repeat match goal with |- _ /\ _ => split end;
      try split; intros; int_crush.
    match goal with E : Point.mk _ _ = Point.mk _ _ |- _ =>
      injection E as -> -> end.
    lia.
  - intros H1 H2. int_crush.
Qed.

Lemma point_min_dist_metric_witness :
  Point.min_dist_with (Point.mk 3 4) (Point.mk 5 6) = Z.abs (3 - 5) + Z.abs (4 - 6)
  /\ Point.min_dist_with (Point.mk 3 4) (Point.mk 0 0)
     <= Point.min_dist_with (Point.mk 3 4) (Point.mk 5 6)
        + Point.min_dist_with (Point.mk 5 6) (Point.mk 0 0).
Proof.
  split.
  - apply (proj1 (proj2 (point_min_dist_metric
             (Point.mk 3 4) (Point.mk 5 6) (Point.mk 0 0)))).
    range_solve.
  - apply (proj2 (proj2 (point_min_dist_metric
             (Point.mk 3 4) (Point.mk 5 6) (Point.mk 0 0))));
      range_solve.
Defined.

(** X18: for a point with coordinates in [int], adding a displacement
    and subtracting it again gives the point back, and adding the
    difference [p - q] to [q] gives [p]; translating two points by one
    displacement keeps their distance; and the distance of two points is
    the distance of their difference from the origin. *)
Theorem point_translation (p q v : Point.t) :
  (Point.wf p ->
   Point.sub (Point.add p v) v = p
   /\ Point.add (Point.sub p v) v = p
   /\ Point.add q (Point.sub_point p q) = p)
  /\ Point.min_dist_with (Point.add p v) (Point.add q v)
     = Point.min_dist_with p q
  /\ Point.min_dist_with p q
     = Point.min_dist_with (Point.sub_point p q) Point.default.
Proof.
  repeat match goal with |- _ /\ _ => split end; intros;
    repeat match goal with |- _ /\ _ => split end; int_crush.
Qed.

Lemma point_translation_witness :
  Point.sub (Point.add (Point.mk 3 4) (Point.mk 5 6)) (Point.mk 5 6)
  = Point.mk 3 4
  /\ Point.add (Point.sub (Point.mk 3 4) (Point.mk 5 6)) (Point.mk 5 6)
     = Point.mk 3 4
  /\ Point.add (Point.mk 1 1) (Point.sub_point (Point.mk 3 4) (Point.mk 1 1))
     = Point.mk 3 4.
Proof.
  apply (proj1 (point_translation (Point.mk 3 4) (Point.mk 1 1) (Point.mk 5 6))).
  range_solve.
Defined.

(** X19: the two intervals of [Point::hull_with] do not depend on the
    order of the points and are always valid, and every rectangle that
    contains both points contains the rectangle made of them. *)
Theorem point_hull_with_least (p q : Point.t) (r : Rectangle.t) :
  Point.hull_with p q = Point.hull_with q p
  /\ Interval.is_valid (fst (Point.hull_with p q)) = true
  /\ Interval.is_valid (snd (Point.hull_with p q)) = true
  /\ (Rectangle.contains_point r p = true ->
      Rectangle.contains_point r q = true ->
      Rectangle.contains r
        (Rectangle.mk (fst (Point.hull_with p q)) (snd (Point.hull_with p q)))
      = true).
Proof.
  repeat split; intros; shape_crush.
Qed.

Lemma point_hull_with_least_witness :
  Rectangle.contains (Rectangle.mk (Interval.mk 0 9) (Interval.mk 0 9))
    (Rectangle.mk (fst (Point.hull_with (Point.mk 3 4) (Point.mk 5 2)))
                  (snd (Point.hull_with (Point.mk 3 4) (Point.mk 5 2))))
  = true.
Proof.
  apply (proj2 (proj2 (proj2
           (point_hull_with_least (Point.mk 3 4) (Point.mk 5 2)
              (Rectangle.mk (Interval.mk 0 9) (Interval.mk 0 9))))));
    reflexivity.
Defined.

(** X20: the rectangle made of the two intervals of [Point::enlarge] has
    width and height twice the amount, computed in [int].  When
    [x - amount], [x + amount], [y - amount] and [y + amount] fit in
    [int], it holds exactly the points within [amount] of the point on
    each axis and it is valid, and contains the point, exactly when the
    amount is not negative; when moreover [2x] and [2y] fit, its centre
    is the point. *)
Theorem point_enlarge_box (p q : Point.t) (amount : T) :
  let box := Rectangle.mk (fst (Point.enlarge p amount))
                          (snd (Point.enlarge p amount)) in
  Rectangle.width box = Int.mul 2 amount
  /\ Rectangle.height box = Int.mul 2 amount
  /\ (Int.in_range (Point.x p - amount) -> Int.in_range (Point.x p + amount) ->
      Int.in_range (Point.y p - amount) -> Int.in_range (Point.y p + amount) ->
      (Rectangle.contains_point box q = true
       <-> Z.abs (Point.x q - Point.x p) <= amount
           /\ Z.abs (Point.y q - Point.y p) <= amount)
      /\ Interval.is_valid (Rectangle.x_interval box) = (0 <=? amount)
      /\ Interval.is_valid (Rectangle.y_interval box) = (0 <=? amount)
      /\ Rectangle.contains_point box p = (0 <=? amount)
      /\ (Int.in_range (2 * Point.x p) -> Int.in_range (2 * Point.y p) ->
          Rectangle.get_center box = p)).
Proof.
  destruct p as [px py], q as [qx qy]. unfold_members.
  split; [wrap_elim; lia|]. split; [wrap_elim; lia|].
  intros H1 H2 H3 H4.
  rewrite (Int_wrap_in_range _ H1), (Int_wrap_in_range _ H2),
    (Int_wrap_in_range _ H3), (Int_wrap_in_range _ H4).
  unfold T in *.
  split; [rewrite !andb_true_iff, !Z.leb_le; lia|].
  split; [split_cmp; finish_order|]. split; [split_cmp; finish_order|].
  split; [split_cmp; finish_order|].
  intros Hx Hy.
  replace (px - amount + (px + amount)) with (2 * px) by ring.
  replace (py - amount + (py + amount)) with (2 * py) by ring.
  rewrite (Int_wrap_in_range _ Hx), (Int_wrap_in_range _ Hy).
  rewrite !(Z.mul_comm 2), !Z.quot_mul by lia. reflexivity.
Qed.

Lemma point_enlarge_box_witness :
  Rectangle.contains_point
    (Rectangle.mk (fst (Point.enlarge (Point.mk 3 4) 2))
                  (snd (Point.enlarge (Point.mk 3 4) 2))) (Point.mk 3 4)
  = (0 <=? 2)
  /\ Rectangle.get_center
       (Rectangle.mk (fst (Point.enlarge (Point.mk 3 4) 2))
                     (snd (Point.enlarge (Point.mk 3 4) 2)))
     = Point.mk 3 4.
Proof.
  destruct (proj2 (proj2 (point_enlarge_box (Point.mk 3 4) (Point.mk 0 0) 2)))
    as (_ & _ & _ & Hp & Hc); [range_solve | range_solve | range_solve
                               | range_solve |].
  split; [exact Hp|]. apply Hc; range_solve.
Defined.

(** X21: flipping a rectangle twice gives it back; a flip exchanges width
    and height and keeps the area; overlap, containment and distance of
    two rectangles are those of their flips; and a flipped rectangle
    contains the point with exchanged coordinates. *)
Theorem rectangle_flip (r s : Rectangle.t) (p : Point.t) :
  Rectangle.flip (Rectangle.flip r) = r
  /\ Rectangle.width (Rectangle.flip r) = Rectangle.height r
  /\ Rectangle.height (Rectangle.flip r) = Rectangle.width r
  /\ Rectangle.area (Rectangle.flip r) = Rectangle.area r
  /\ Rectangle.overlaps (Rectangle.flip r) (Rectangle.flip s)
     = Rectangle.overlaps r s
  /\ Rectangle.contains (Rectangle.flip r) (Rectangle.flip s)
     = Rectangle.contains r s
  /\ Rectangle.min_dist_with (Rectangle.flip r) (Rectangle.flip s)
     = Rectangle.min_dist_with r s
  /\ Rectangle.contains_point (Rectangle.flip r)
       (Point.mk (Point.y p) (Point.x p))
     = Rectangle.contains_point r p.
Proof.
  repeat match goal with |- _ /\ _ => split end.
  - destruct r as [rx ry]. reflexivity.
  - reflexivity.
  - reflexivity.
  - unfold Rectangle.area, Rectangle.width, Rectangle.height, Rectangle.flip,
      Int.mul.
    cbn [Rectangle.x_interval Rectangle.y_interval].
    rewrite Z.mul_comm. reflexivity.
  - shape_crush.
  - shape_crush.
  - unfold Rectangle.min_dist_with, Rectangle.flip, Int.add.
    cbn [Rectangle.x_interval Rectangle.y_interval].
    rewrite Z.add_comm. reflexivity.
  - shape_crush.
Qed.

(** X22: a rectangle whose two intervals are valid contains its lower
    left corner and its upper right corner, its lower left corner is
    below its upper right one on both axes, and it contains its centre
    when the sums of its bounds on each axis fit in [int].  A rectangle
    contains a point exactly when it contains the one-point rectangle at
    it, and contains a valid rectangle exactly when it contains that
    rectangle's two corners. *)
Theorem rectangle_corners (r s : Rectangle.t) (p : Point.t) :
  (Interval.is_valid (Rectangle.x_interval r) = true ->
   Interval.is_valid (Rectangle.y_interval r) = true ->
   Rectangle.contains_point r (Rectangle.ll r) = true
   /\ Rectangle.contains_point r (Rectangle.ur r) = true
   /\ Point.x (Rectangle.lower_corner r) <= Point.x (Rectangle.upper_corner r)
   /\ Point.y (Rectangle.lower_corner r) <= Point.y (Rectangle.upper_corner r)
   /\ (Int.in_range (Interval.lb (Rectangle.x_interval r)
                     + Interval.ub (Rectangle.x_interval r)) ->
       Int.in_range (Interval.lb (Rectangle.y_interval r)
                     + Interval.ub (Rectangle.y_interval r)) ->
       Rectangle.contains_point r (Rectangle.get_center r) = true))
  /\ Rectangle.contains_point r p
     = Rectangle.contains r
         (Rectangle.mk (Interval.mk (Point.x p) (Point.x p))
                       (Interval.mk (Point.y p) (Point.y p)))
  /\ (Interval.is_valid (Rectangle.x_interval s) = true ->
      Interval.is_valid (Rectangle.y_interval s) = true ->
      Rectangle.contains r s
      = Rectangle.contains_point r (Rectangle.ll s)
        && Rectangle.contains_point r (Rectangle.ur s)).
Proof.
  split; [|split].
  - destruct r as [[lx ux] [ly uy]]. unfold_members.
    intros Hx Hy. apply Z.leb_le in Hx, Hy.
    repeat match goal with |- _ /\ _ => split end;
      try (rewrite !andb_true_iff, !Z.leb_le; lia); try lia.
    intros Sx Sy.
    rewrite (Int_wrap_in_range _ Sx), (Int_wrap_in_range _ Sy).
    pose proof (quot2_between lx ux Hx). pose proof (quot2_between ly uy Hy).
    rewrite !andb_true_iff, !Z.leb_le. lia.
  - open_shapes. reflexivity.
  - intros; shape_crush.
Qed.

Lemma rectangle_corners_witness :
  let r := Rectangle.mk (Interval.mk 1 5) (Interval.mk 2 6) in
  Rectangle.contains_point r (Rectangle.ll r) = true
  /\ Rectangle.contains_point r (Rectangle.ur r) = true
  /\ Rectangle.contains_point r (Rectangle.get_center r) = true.
Proof.
  destruct (proj1 (rectangle_corners
              (Rectangle.mk (Interval.mk 1 5) (Interval.mk 2 6))
              Rectangle.default (Point.mk 0 0)))
    as (Hll & Hur & _ & _ & Hc); [reflexivity | reflexivity |].
  split; [exact Hll|]. split; [exact Hur|]. apply Hc; range_solve.
Defined.

(** X23: the area of a rectangle does not tell whether it is valid.
    When the exact width, the exact height and their product fit in
    [int], the area is not negative when both intervals are valid, it is
    strictly positive when both are invalid, and it is negative when one
    is invalid and the other has positive width. *)
Theorem rectangle_area_sign (r : Rectangle.t) :
  Int.in_range (Interval.ub (Rectangle.x_interval r)
                - Interval.lb (Rectangle.x_interval r)) ->
  Int.in_range (Interval.ub (Rectangle.y_interval r)
                - Interval.lb (Rectangle.y_interval r)) ->
  Int.in_range ((Interval.ub (Rectangle.x_interval r)
                 - Interval.lb (Rectangle.x_interval r))
                * (Interval.ub (Rectangle.y_interval r)
                   - Interval.lb (Rectangle.y_interval r))) ->
  (Interval.is_valid (Rectangle.x_interval r) = true ->
   Interval.is_valid (Rectangle.y_interval r) = true ->
   0 <= Rectangle.area r)
  /\ (Interval.is_invalid (Rectangle.x_interval r) = true ->
      Interval.is_invalid (Rectangle.y_interval r) = true ->
      0 < Rectangle.area r)
  /\ (Interval.is_invalid (Rectangle.x_interval r) = true ->
      0 < Interval.width (Rectangle.y_interval r) ->
      Rectangle.area r < 0)
  /\ (0 < Interval.width (Rectangle.x_interval r) ->
      Interval.is_invalid (Rectangle.y_interval r) = true ->
      Rectangle.area r < 0).
Proof.
  destruct r as [[lx ux] [ly uy]]. unfold_members. intros Hw Hh Ha.
  rewrite (Int_wrap_in_range _ Hw), (Int_wrap_in_range _ Hh),
    (Int_wrap_in_range _ Ha).
  unfold T in *.
  repeat split; intros H1 H2;
    rewrite ?Z.leb_le, ?Z.ltb_lt in H1, H2; nia.
Qed.

Lemma rectangle_area_sign_witness :
  0 <= Rectangle.area (Rectangle.mk (Interval.mk 1 5) (Interval.mk 2 6))
  /\ 0 < Rectangle.area Rectangle.default
  /\ Rectangle.area (Rectangle.mk (Interval.mk 1 0) (Interval.mk 2 6)) < 0.
Proof.
  split; [|split].
  - destruct (rectangle_area_sign
                (Rectangle.mk (Interval.mk 1 5) (Interval.mk 2 6)))
      as (H & _); [range_solve | range_solve | range_solve |].
    apply H; reflexivity.
  - destruct (rectangle_area_sign Rectangle.default)
      as (_ & H & _); [range_solve | range_solve | range_solve |].
    apply H; reflexivity.
  - destruct (rectangle_area_sign
                (Rectangle.mk (Interval.mk 1 0) (Interval.mk 2 6)))
      as (_ & _ & H & _); [range_solve | range_solve | range_solve |].
    apply H; reflexivity.
Defined.

(** X24: flipping carries the predicates of one kind of segment to the
    other: two vertical segments overlap, or contain one another, exactly
    when their flips do, and a vertical segment contains a point exactly
    when its flip contains the point with exchanged coordinates; likewise
    from horizontal to vertical.  Segments on different fixed coordinates
    neither overlap nor contain one another, whatever their intervals,
    and a segment contains no point off its fixed coordinate. *)
Theorem segment_flip_and_collinearity :
  (forall (s s' : VSegment.t) (p : Point.t),
      HSegment.overlaps (VSegment_flip s) (VSegment_flip s')
      = VSegment.overlaps s s'
      /\ HSegment.contains (VSegment_flip s) (VSegment_flip s')
         = VSegment.contains s s'
      /\ HSegment.contains_point (VSegment_flip s)
           (Point.mk (Point.y p) (Point.x p))
         = VSegment.contains_point s p)
  /\ (forall (h h' : HSegment.t) (p : Point.t),
      VSegment.overlaps (HSegment.flip h) (HSegment.flip h')
      = HSegment.overlaps h h'
      /\ VSegment.contains (HSegment.flip h) (HSegment.flip h')
         = HSegment.contains h h'
      /\ VSegment.contains_point (HSegment.flip h)
           (Point.mk (Point.y p) (Point.x p))
         = HSegment.contains_point h p)
  /\ (forall (s s' : VSegment.t) (p : Point.t),
      (VSegment.x s <> VSegment.x s' ->
       VSegment.overlaps s s' = false /\ VSegment.contains s s' = false)
      /\ (VSegment.x s <> Point.x p -> VSegment.contains_point s p = false))
  /\ (forall (h h' : HSegment.t) (p : Point.t),
      (HSegment.y h <> HSegment.y h' ->
       HSegment.overlaps h h' = false /\ HSegment.contains h h' = false)
      /\ (HSegment.y h <> Point.y p -> HSegment.contains_point h p = false)).
Proof.
  repeat split; intros; shape_crush.
Qed.

Lemma segment_flip_and_collinearity_witness :
  VSegment.overlaps (VSegment.mk 5 (Interval.mk 1 10))
                    (VSegment.mk 6 (Interval.mk 1 10)) = false
  /\ VSegment.contains (VSegment.mk 5 (Interval.mk 1 10))
                       (VSegment.mk 6 (Interval.mk 1 10)) = false.
Proof.
  apply (proj1 (proj1 (proj2 (proj2 segment_flip_and_collinearity))
                  (VSegment.mk 5 (Interval.mk 1 10))
                  (VSegment.mk 6 (Interval.mk 1 10)) (Point.mk 0 0))).
  discriminate.
Defined.

(* ================================================================= *)
(** ** Vector2 *)

(** X25: vectors with [+], unary [-] and scaling satisfy the laws of a
    module over the scalars, with the arithmetic of [int]: addition is
    commutative and associative with [-v] as inverse, subtraction is
    addition of the opposite, scaling distributes over both additions
    and composes multiplicatively; [scalar * vec] is [vec * scalar]; and
    for a vector with components in [int], [zero_vector] is the unit of
    addition, 1 the unit of scaling, and the vector is the combination
    of [unit_x] and [unit_y] by its components. *)
Theorem vector2_module_laws (u v w : Vector2.t) (a b : T) :
  Vector2.add u v = Vector2.add v u
  /\ Vector2.add (Vector2.add u v) w = Vector2.add u (Vector2.add v w)
  /\ Vector2.add v (Vector2.neg v) = zero_vector
  /\ Vector2.sub u v = Vector2.add u (Vector2.neg v)
  /\ Vector2.mul (Vector2.add u v) a
     = Vector2.add (Vector2.mul u a) (Vector2.mul v a)
  /\ Vector2.mul v (Int.add a b)
     = Vector2.add (Vector2.mul v a) (Vector2.mul v b)
  /\ Vector2.mul (Vector2.mul v a) b = Vector2.mul v (Int.mul a b)
  /\ scalar_mul a v = Vector2.mul v a
  /\ Vector2.neg v = Vector2.mul v (-1)
  /\ (Vector2.wf v ->
      Vector2.add v zero_vector = v
      /\ Vector2.mul v 1 = v
      /\ v = Vector2.add (Vector2.mul unit_x (Vector2.x v))
                         (Vector2.mul unit_y (Vector2.y v))).
Proof.
  split_conj.
  - wrap_ring.
  - wrap_ring.
  - int_crush.
  - wrap_ring.
  - wrap_ring.
  - wrap_ring.
  - wrap_ring.
  - reflexivity.
  - wrap_ring.
  - intros Hwf. split_conj; int_crush.
Qed.

Lemma vector2_module_laws_witness :
  Vector2.add (Vector2.mk 1 2) zero_vector = Vector2.mk 1 2
  /\ Vector2.mul (Vector2.mk 1 2) 1 = Vector2.mk 1 2
  /\ Vector2.mk 1 2
     = Vector2.add (Vector2.mul unit_x (Vector2.x (Vector2.mk 1 2)))
                   (Vector2.mul unit_y (Vector2.y (Vector2.mk 1 2))).
Proof.
  apply (proj2 (proj2 (proj2 (proj2 (proj2 (proj2 (proj2 (proj2 (proj2
           (vector2_module_laws (Vector2.mk 0 0) (Vector2.mk 1 2)
              (Vector2.mk 0 0) 0 0)))))))))).
  range_solve.
Defined.

(** X26: with the arithmetic of [int], the dot product is symmetric and
    linear in its first argument, the cross product is antisymmetric and
    linear in its first argument and vanishes on parallel vectors,
    [cross(unit_x, unit_y)] is 1, [length_squared] is the dot product of
    a vector with itself, and the squares of the dot and cross products
    of two vectors add up to the product of their squared lengths.  When
    the exact sum of squares fits in [int], [length_squared] returns it,
    is never negative and is zero for the zero vector only. *)
Theorem vector2_dot_cross (u v w : Vector2.t) (a : T) :
  Vector2.dot u v = Vector2.dot v u
  /\ Vector2.dot (Vector2.add u v) w
     = Int.add (Vector2.dot u w) (Vector2.dot v w)
  /\ Vector2.dot (Vector2.mul u a) v = Int.mul a (Vector2.dot u v)
  /\ Vector2.cross u v = Int.neg (Vector2.cross v u)
  /\ Vector2.cross (Vector2.add u v) w
     = Int.add (Vector2.cross u w) (Vector2.cross v w)
  /\ Vector2.cross (Vector2.mul v a) v = 0
  /\ Vector2.cross unit_x unit_y = 1
  /\ Vector2.length_squared v = Vector2.dot v v
  /\ Int.add (Int.mul (Vector2.dot u v) (Vector2.dot u v))
             (Int.mul (Vector2.cross u v) (Vector2.cross u v))
     = Int.mul (Vector2.length_squared u) (Vector2.length_squared v)
  /\ (Int.in_range (Vector2.x v * Vector2.x v + Vector2.y v * Vector2.y v) ->
      Vector2.length_squared v
      = Vector2.x v * Vector2.x v + Vector2.y v * Vector2.y v
      /\ 0 <= Vector2.length_squared v
      /\ (Vector2.length_squared v = 0 <-> Vector2.eqb_value v 0 = true)).
Proof.
  split_conj.
  - wrap_ring.
  - wrap_ring.
  - wrap_ring.
  - wrap_ring.
  - wrap_ring.
  - destruct v as [vx vy]. unfold_members.
    change 0 with (Int.wrap 0). apply Int_wrap_eq_iff.
    repeat setoid_rewrite Int_wrap_eqm.
    replace (vx * a * vy - vy * a * vx) with 0 by (unfold T in *; ring).
    reflexivity.
  - vm_compute. reflexivity.
  - reflexivity.
  - wrap_ring.
  - intros H. destruct v as [vx vy]. unfold_members.
    assert (Hx : Int.in_range (vx * vx)).
    { unfold Int.in_range, Int.min_int, Int.max_int, T in *. simpl in H. nia. }
    assert (Hy : Int.in_range (vy * vy)).
    { unfold Int.in_range, Int.min_int, Int.max_int, T in *. simpl in H. nia. }
    simpl in H.
    rewrite (Int_wrap_in_range _ Hx), (Int_wrap_in_range _ Hy),
      (Int_wrap_in_range _ H).
    unfold T in *. split_conj; [reflexivity | nia |].
    rewrite andb_true_iff, !Z.eqb_eq. split; intros; nia.
Qed.

Lemma vector2_dot_cross_witness :
  Vector2.length_squared (Vector2.mk 1 2) = 1 * 1 + 2 * 2
  /\ 0 <= Vector2.length_squared (Vector2.mk 1 2)
  /\ (Vector2.length_squared (Vector2.mk 1 2) = 0
      <-> Vector2.eqb_value (Vector2.mk 1 2) 0 = true).
Proof.
  apply (proj2 (proj2 (proj2 (proj2 (proj2 (proj2 (proj2 (proj2 (proj2
           (vector2_dot_cross (Vector2.mk 0 0) (Vector2.mk 1 2)
              (Vector2.mk 0 0) 0)))))))))).
  range_solve.
Defined.

(** X27: the distance of two points is the Manhattan length of their
    coordinate difference.  When the exact sum [|x| + |y|] fits in [int],
    [manhattan_length] returns it, so it is then never negative, zero for
    the zero vector only, and unchanged by negation; when the lengths of
    two vectors fit, the length of their sum is at most the sum of their
    lengths; and when the square of [|x| + |y|] fits, it lies between
    the squared length and twice the squared length. *)
Theorem vector2_manhattan_norm (u v : Vector2.t) (p q : Point.t) :
  Point.min_dist_with p q
  = Vector2.manhattan_length
      (Vector2.mk (Int.sub (Point.x p) (Point.x q))
                  (Int.sub (Point.y p) (Point.y q)))
  /\ (Int.in_range (Z.abs (Vector2.x v) + Z.abs (Vector2.y v)) ->
      Vector2.manhattan_length v = Z.abs (Vector2.x v) + Z.abs (Vector2.y v)
      /\ 0 <= Vector2.manhattan_length v
      /\ (Vector2.manhattan_length v = 0 <-> v = zero_vector)
      /\ Vector2.manhattan_length (Vector2.neg v) = Vector2.manhattan_length v)
  /\ (Int.in_range (Z.abs (Vector2.x u) + Z.abs (Vector2.y u)) ->
      Int.in_range (Z.abs (Vector2.x v) + Z.abs (Vector2.y v)) ->
      Vector2.manhattan_length (Vector2.add u v)
      <= Vector2.manhattan_length u + Vector2.manhattan_length v)
  /\ (Int.in_range ((Z.abs (Vector2.x v) + Z.abs (Vector2.y v))
                    * (Z.abs (Vector2.x v) + Z.abs (Vector2.y v))) ->
      Vector2.length_squared v
      <= Vector2.manhattan_length v * Vector2.manhattan_length v
      <= 2 * Vector2.length_squared v).
Proof.
  split; [reflexivity|]. split; [|split].
  - intros H. split_conj; try split; intros; int_crush.
    match goal with E : Vector2.mk _ _ = Vector2.mk _ _ |- _ =>
      injection E as -> -> end.
    lia.
  - intros H1 H2. int_crush.
  - intros H. destruct v as [vx vy]. unfold_members. simpl in H.
    pose proof (Z.abs_square vx) as Sx. pose proof (Z.abs_square vy) as Sy.
    pose proof (Z.abs_nonneg vx) as Nx. pose proof (Z.abs_nonneg vy) as Ny.
    pose proof (Z.square_nonneg (Z.abs vx - Z.abs vy)) as Sq.
    assert (Hm : Int.in_range (Z.abs vx + Z.abs vy))
      by (unfold Int.in_range, Int.min_int, Int.max_int, T in *; nia).
    assert (Hax : Int.in_range (Z.abs vx))
      by (unfold Int.in_range, Int.min_int, Int.max_int, T in *; lia).
    assert (Hay : Int.in_range (Z.abs vy))
      by (unfold Int.in_range, Int.min_int, Int.max_int, T in *; lia).
    assert (Hxx : Int.in_range (vx * vx))
      by (unfold Int.in_range, Int.min_int, Int.max_int, T in *; nia).
    assert (Hyy : Int.in_range (vy * vy))
      by (unfold Int.in_range, Int.min_int, Int.max_int, T in *; nia).
    assert (Hs : Int.in_range (vx * vx + vy * vy))
      by (unfold Int.in_range, Int.min_int, Int.max_int, T in *; nia).
    rewrite (Int_wrap_in_range _ Hax), (Int_wrap_in_range _ Hay),
      (Int_wrap_in_range _ Hm), (Int_wrap_in_range _ Hxx),
      (Int_wrap_in_range _ Hyy), (Int_wrap_in_range _ Hs).
    unfold T in *. nia.
Qed.

Lemma vector2_manhattan_norm_witness :
  Vector2.manhattan_length (Vector2.mk 3 (-4)) = Z.abs 3 + Z.abs (-4)
  /\ Vector2.length_squared (Vector2.mk 3 (-4))
     <= Vector2.manhattan_length (Vector2.mk 3 (-4))
        * Vector2.manhattan_length (Vector2.mk 3 (-4))
     <= 2 * Vector2.length_squared (Vector2.mk 3 (-4)).
Proof.
  split.
  - apply (proj1 (proj2 (vector2_manhattan_norm (Vector2.mk 0 0)
             (Vector2.mk 3 (-4)) (Point.mk 0 0) (Point.mk 0 0)))).
    range_solve.
  - apply (proj2 (proj2 (proj2 (vector2_manhattan_norm (Vector2.mk 0 0)
             (Vector2.mk 3 (-4)) (Point.mk 0 0) (Point.mk 0 0))))).
    range_solve.
Defined.

(** X28: [operator/] has no result on a zero scalar, nor on the scalar -1
    when a component is [min_int]; for a non-zero scalar and a vector
    with components in [int], scaling the vector and dividing by the same
    scalar gives the vector back when the scaled components fit in
    [int], while dividing and then scaling, where the division has a
    result, misses each component by less than the magnitude of the
    scalar (the truncation of the integer division). *)
Theorem vector2_div_spec (v : Vector2.t) (s : T) :
  Vector2.div v 0 = None
  /\ (Vector2.x v = Int.min_int \/ Vector2.y v = Int.min_int ->
      Vector2.div v (-1) = None)
  /\ (s <> 0 -> Vector2.wf v ->
      Int.in_range (Vector2.x v * s) -> Int.in_range (Vector2.y v * s) ->
      Vector2.div (Vector2.mul v s) s = Some v)
  /\ (s <> 0 -> Vector2.wf v ->
      s <> -1 \/ (Vector2.x v <> Int.min_int /\ Vector2.y v <> Int.min_int) ->
      exists q : Vector2.t,
        Vector2.div v s = Some q
        /\ Z.abs (Vector2.x v - Vector2.x (Vector2.mul q s)) < Z.abs s
        /\ Z.abs (Vector2.y v - Vector2.y (Vector2.mul q s)) < Z.abs s).
Proof.
  destruct v as [vx vy]. unfold Vector2.wf, Vector2.div, Vector2.mul, Int.div.
  cbn [Vector2.x Vector2.y]. split_conj.
  - reflexivity.
  - intros [-> | ->].
    + reflexivity.
    + destruct (vx =? Int.min_int); reflexivity.
  - intros Hs [Hx Hy] Hxs Hys. unfold Int.mul.
    rewrite (Int_wrap_in_range _ Hxs), (Int_wrap_in_range _ Hys).
    destruct (Z.eqb_spec s 0) as [E|_]; [contradiction|].
    assert (Ex : (vx * s =? Int.min_int) && (s =? -1) = false).
    { apply andb_false_iff.
      destruct (Z.eqb_spec (vx * s) Int.min_int) as [E1|]; [|left; reflexivity].
      destruct (Z.eqb_spec s (-1)) as [E2|]; [|right; reflexivity].
      exfalso. subst s.
      unfold Int.in_range, Int.min_int, Int.max_int, T in *. lia. }
    assert (Ey : (vy * s =? Int.min_int) && (s =? -1) = false).
    { apply andb_false_iff.
      destruct (Z.eqb_spec (vy * s) Int.min_int) as [E1|]; [|left; reflexivity].
      destruct (Z.eqb_spec s (-1)) as [E2|]; [|right; reflexivity].
      exfalso. subst s.
      unfold Int.in_range, Int.min_int, Int.max_int, T in *. lia. }
    rewrite Ex, Ey, !Z.quot_mul by exact Hs. reflexivity.
  - intros Hs [Hx Hy] Hedge.
    destruct (Z.eqb_spec s 0) as [E|_]; [contradiction|].
    assert (Ex : (vx =? Int.min_int) && (s =? -1) = false).
    { apply andb_false_iff.
      destruct Hedge as [H|[H _]];
        [right; apply Z.eqb_neq; exact H | left; apply Z.eqb_neq; exact H]. }
    assert (Ey : (vy =? Int.min_int) && (s =? -1) = false).
    { apply andb_false_iff.
      destruct Hedge as [H|[_ H]];
        [right; apply Z.eqb_neq; exact H | left; apply Z.eqb_neq; exact H]. }
    rewrite Ex, Ey. eexists. split; [reflexivity|].
    cbn [Vector2.x Vector2.y]. unfold Int.mul.
    pose proof (Z.quot_rem' vx s) as Qx. pose proof (Z.quot_rem' vy s) as Qy.
    pose proof (Z.rem_bound_abs vx s Hs) as Bx.
    pose proof (Z.rem_bound_abs vy s Hs) as By.
    destruct (quot_mul_between vx s Hs) as [Px Nx].
    destruct (quot_mul_between vy s Hs) as [Py Ny].
    assert (Rx : Int.in_range (Z.quot vx s * s))
      by (unfold Int.in_range, Int.min_int, Int.max_int, T in *; lia).
    assert (Ry : Int.in_range (Z.quot vy s * s))
      by (unfold Int.in_range, Int.min_int, Int.max_int, T in *; lia).
    rewrite (Int_wrap_in_range _ Rx), (Int_wrap_in_range _ Ry).
    unfold T in *. split; lia.
Qed.

Lemma vector2_div_spec_witness :
  Vector2.div (Vector2.mul (Vector2.mk 7 (-7)) 2) 2 = Some (Vector2.mk 7 (-7))
  /\ exists q : Vector2.t,
       Vector2.div (Vector2.mk 7 (-7)) 2 = Some q
       /\ Z.abs (Vector2.x (Vector2.mk 7 (-7)) - Vector2.x (Vector2.mul q 2))
          < Z.abs 2
       /\ Z.abs (Vector2.y (Vector2.mk 7 (-7)) - Vector2.y (Vector2.mul q 2))
          < Z.abs 2.
Proof.
  split.
  - apply (proj1 (proj2 (proj2 (vector2_div_spec (Vector2.mk 7 (-7)) 2))));
      [discriminate | range_solve | range_solve | range_solve].
  - apply (proj2 (proj2 (proj2 (vector2_div_spec (Vector2.mk 7 (-7)) 2))));
      [discriminate | range_solve | left; discriminate].
Defined.

(** X29: a compound assignment leaves in the receiver what the matching
    binary operator returns, leaves every other object of the store
    untouched and returns the receiver, also when the operand is the
    receiver itself: [v += v] doubles [v] and [v -= v] clears it. *)
Theorem vector2_compound_assignment
        (s : Vector2.store) (this other a : Vector2.ref) (k : T) :
  fst (Vector2.add_assign s this other) a
  = (if Nat.eqb a this then Vector2.add (s this) (s other) else s a)
  /\ snd (Vector2.add_assign s this other) = this
  /\ fst (Vector2.sub_assign s this other) a
     = (if Nat.eqb a this then Vector2.sub (s this) (s other) else s a)
  /\ snd (Vector2.sub_assign s this other) = this
  /\ fst (Vector2.mul_assign s this k) a
     = (if Nat.eqb a this then Vector2.mul (s this) k else s a)
  /\ snd (Vector2.mul_assign s this k) = this
  /\ match Vector2.div_assign s this k, Vector2.div (s this) k with
     | Some (s', r), Some q =>
         r = this /\ s' a = (if Nat.eqb a this then q else s a)
     | None, None => True
     | _, _ => False
     end
  /\ fst (Vector2.add_assign s this this) this = Vector2.mul (s this) 2
  /\ fst (Vector2.sub_assign s this this) this = zero_vector.
Proof.
  unfold Vector2.add_assign, Vector2.sub_assign, Vector2.mul_assign,
    Vector2.div_assign, Vector2.div, Vector2.write_x, Vector2.write_y,
    Vector2.add, Vector2.sub, Vector2.mul.
  cbn [fst snd]. rewrite !Nat.eqb_refl. cbn [Vector2.x Vector2.y].
  split_conj.
  - destruct (Nat.eqb_spec a this) as [->|Ha]; [|reflexivity].
    destruct (Nat.eqb_spec other this) as [->|Ho];
      rewrite ?Nat.eqb_refl; reflexivity.
  - reflexivity.
  - destruct (Nat.eqb_spec a this) as [->|Ha]; [|reflexivity].
    destruct (Nat.eqb_spec other this) as [->|Ho];
      rewrite ?Nat.eqb_refl; reflexivity.
  - reflexivity.
  - destruct (Nat.eqb_spec a this) as [->|Ha]; reflexivity.
  - reflexivity.
  - destruct (Int.div (Vector2.x (s this)) k) as [qx|]; [|exact I].
    cbn [fst snd]. rewrite ?Nat.eqb_refl. cbn [Vector2.x Vector2.y].
    destruct (Int.div (Vector2.y (s this)) k) as [qy|]; [|exact I].
    split; [reflexivity|].
    destruct (Nat.eqb_spec a this) as [->|Ha]; reflexivity.
  - destruct (s this) as [tx ty]. wrap_ring.
  - destruct (s this) as [tx ty]. int_crush.
Qed.

(** X30: when the reference point is itself among the candidates and the
    Manhattan distance from it to every candidate fits in [int],
    [nearest_point_to] returns the address of an element inside the
    vector and that element equals the reference point. *)
Theorem nearest_point_to_finds_member
        (point : Point.t) (candidates : list Point.t) :
  In point candidates ->
  Forall (fun c : Point.t =>
            Int.in_range (Z.abs (Point.x point - Point.x c)
                          + Z.abs (Point.y point - Point.y c)))
         candidates ->
  exists i : nat,
    Point.nearest_point_to point candidates = Point.addr i
    /\ (i < length candidates)%nat
    /\ Point.deref candidates (Point.addr i) = Some point.
Proof.
  intros Hin Hfit. destruct candidates as [|c0 rest]; [destruct Hin|].
  destruct (nearest_loop_invariant point rest [c0] 0%nat
              (Point.min_dist_with point c0) c0) as (c & Hnth & Hmin & _).
  - reflexivity.
  - reflexivity.
  - intros [|[|j]] c' Hj; simpl in Hj; try discriminate.
    injection Hj as <-. lia.
  - intros j c' Hj. lia.
  - cbv beta zeta iota delta [length app] in Hnth, Hmin.
    exists (Point.nearest_loop point rest 1 0 (Point.min_dist_with point c0)).
    split; [reflexivity|]. split.
    + apply nth_error_Some. cbn [length]. congruence.
    + pose proof Hin as Hin'.
      apply In_nth_error in Hin'. destruct Hin' as [j Hj].
      apply Hmin in Hj. cbn [Point.deref]. rewrite Hnth. f_equal.
      rewrite Forall_forall in Hfit.
      pose proof (Hfit c (nth_error_In _ _ Hnth)) as Hc.
      pose proof (Hfit point Hin) as Hp.
      rewrite (Point_min_dist_with_exact _ _ Hc),
        (Point_min_dist_with_exact _ _ Hp) in Hj.
      destruct c as [cx cy], point as [px py].
      cbn [Point.x Point.y] in Hj. unfold T in *.
      apply (f_equal2 Point.mk); lia.
Qed.

Lemma nearest_point_to_finds_member_witness :
  exists i : nat,
    Point.nearest_point_to (Point.mk 3 4)
      [Point.mk 1 1; Point.mk 3 4; Point.mk 3 3] = Point.addr i
    /\ Nat.lt i (length [Point.mk 1 1; Point.mk 3 4; Point.mk 3 3])
    /\ Point.deref [Point.mk 1 1; Point.mk 3 4; Point.mk 3 3] (Point.addr i)
       = Some (Point.mk 3 4).
Proof.
  apply (nearest_point_to_finds_member (Point.mk 3 4)
           [Point.mk 1 1; Point.mk 3 4; Point.mk 3 3]).
  - right. left. reflexivity.
  - repeat constructor; range_solve.
Defined.
